(** * Trading-bot signal engine: indicators, regime classifier, signal generator

    Shallow embedding of [core/regime_detector_v2.py], [core/regime_detector.py]
    and of [TradingBot.execute_signal] from [bot.py].

    Number model.  Python floats are modelled as exact rationals ([Q]) kept
    in lowest terms: every arithmetic operation of the source is the exact
    operation followed by [Qred], so that the definitions evaluate on
    concrete windows.  Rounding error, nan and inf are outside the model.
    The [period] arguments are positive integers ([positive]); every
    division of the indicator library is then either by a positive period or
    behind a zero guard that the model keeps.  Computed values are compared
    with [==] (equality of rationals); literals returned as they are written
    are compared with [=].

    Array model.  A one-dimensional numpy array is a [list Q].  Operations
    that raise in Python (an index out of range, an elementwise operation on
    shapes that do not broadcast, a float division by zero) return [Raise]
    in the [outcome] monad below. *)

From Stdlib Require Import QArith Qround Qabs Qminmax ZArith List Lia Lqa Bool String.
From stdpp Require Import gmap strings list.

Local Open Scope Q_scope.

(** ** Exceptions and the error monad *)

Inductive exn : Set := IndexError | ValueError | ZeroDivisionError.

Inductive outcome (A : Type) : Type :=
| Return (a : A)
| Raise (e : exn).

Arguments Return {A} a.
Arguments Raise {A} e.

#[global] Instance outcome_ret : MRet outcome := fun _ a => Return a.

#[global] Instance outcome_bind : MBind outcome := fun _ _ k m =>
  match m with
  | Return a => k a
  | Raise e => Raise e
  end.

Definition returns {A : Type} (m : outcome A) : Prop := exists a, m = Return a.

(** ** Arithmetic in lowest terms *)

Definition nadd (x y : Q) : Q := Qred (x + y).
Definition nsub (x y : Q) : Q := Qred (x - y).
Definition nmul (x y : Q) : Q := Qred (x * y).
Definition ndiv (x y : Q) : Q := Qred (x / y).

Infix "⊕" := nadd (at level 50, left associativity) : Q_scope.
Infix "⊖" := nsub (at level 50, left associativity) : Q_scope.
Infix "⊗" := nmul (at level 40, left associativity) : Q_scope.
Infix "⊘" := ndiv (at level 40, left associativity) : Q_scope.

(** ** Comparisons on numbers, as booleans *)

Definition Qltb (x y : Q) : bool := negb (Qle_bool y x).
Definition Qgtb (x y : Q) : bool := Qltb y x.

(** ** numpy on one-dimensional arrays *)

Definition Qsum (l : list Q) : Q := fold_right nadd 0 l.

Definition Qlen {A : Type} (l : list A) : Q := inject_Z (Z.of_nat (length l)).

(** [np.mean].  numpy answers nan (with a warning, no exception) on an empty
    array; nan is outside the number model and [np_mean []] is [0] here.  The
    source reaches an empty mean only through arrays of unequal lengths that
    broadcast to an empty shape. *)
Definition np_mean (l : list Q) : Q := Qsum l ⊘ Qlen l.

(** [np.diff]: consecutive differences. *)
Fixpoint np_diff (l : list Q) : list Q :=
  match l with
  | a :: (b :: _) as t => (b ⊖ a) :: np_diff t
  | _ => []
  end.

(** [a[-k:]]: the trailing [k] elements, all of them when there are fewer;
    Python reads [a[-0:]] as [a[0:]], the whole array. *)
Definition slice_last {A : Type} (k : nat) (l : list A) : list A :=
  if (k =? 0)%nat then l else drop (length l - k) l.

(** [a[1:]] and [a[:-1]]. *)
Definition slice_tail {A : Type} (l : list A) : list A := drop 1 l.
Definition slice_init {A : Type} (l : list A) : list A := take (length l - 1) l.

(** [a[-1]] and [a[0]] raise IndexError on an empty array. *)
Definition index_last (l : list Q) : outcome Q :=
  match last l with
  | Some x => Return x
  | None => Raise IndexError
  end.

Definition index_first (l : list Q) : outcome Q :=
  match l with
  | x :: _ => Return x
  | [] => Raise IndexError
  end.

(** An elementwise binary operation: equal shapes are zipped, a one-element
    array is broadcast against the other, anything else raises ValueError. *)
Definition np_map2 {A B C : Type} (f : A -> B -> C) (a : list A) (b : list B)
  : outcome (list C) :=
  if (length a =? length b)%nat then Return (zip_with f a b)
  else match a, b with
       | [x], _ => Return (map (f x) b)
       | _, [y] => Return (map (fun x => f x y) a)
       | _, _ => Raise ValueError
       end.

Definition np_sub := np_map2 nsub.
Definition np_add := np_map2 nadd.
Definition np_div := np_map2 ndiv.
Definition np_maximum := np_map2 Qmax.
Definition np_abs : list Q -> list Q := map Qabs.
Definition np_scale (c : Q) : list Q -> list Q := map (nmul c).

(** [np.where(a > 0, a, 1)]: the zero guard of the denominators. *)
Definition guard_positive : list Q -> list Q :=
  map (fun x => if Qgtb x 0 then x else 1).

(** Python's [round(x, ndigits)]: to the nearest multiple of [10^-ndigits],
    a tie going to the even neighbour.  The model rounds the exact value;
    the source rounds the double, so a value that is an exact tie here
    (0.825 = 0.75 * 1.1 rounds to 0.82) can go to the other neighbour there
    (0.83). *)
Definition round_half_even (x : Q) : Z :=
  let n := Qfloor x in
  match Qcompare (x - inject_Z n) (1 # 2) with
  | Lt => n
  | Gt => (n + 1)%Z
  | Eq => if Z.even n then n else (n + 1)%Z
  end.

Definition py_round (x : Q) (ndigits : nat) : Q :=
  let scale := inject_Z (10 ^ Z.of_nat ndigits) in
  inject_Z (round_half_even (x ⊗ scale)) ⊘ scale.

Definition Qpos (p : positive) : Q := inject_Z (Zpos p).

(** * regime_detector_v2.py *)

Module V2.

(** ** Indicator library *)

(** [calculate_rsi], lines 66-82. *)
Definition calculate_rsi (prices : list Q) (period : positive) : outcome Q :=
  if (length prices <? Pos.to_nat period + 1)%nat then Return 50.0
  else
    let deltas := np_diff prices in
    let gains := map (fun d => if Qgtb d 0 then d else 0) deltas in
    let losses := map (fun d => if Qltb d 0 then - d else 0) deltas in
    let avg_gain := np_mean (slice_last (Pos.to_nat period) gains) in
    let avg_loss := np_mean (slice_last (Pos.to_nat period) losses) in
    if Qeq_bool avg_loss 0 then Return 100.0
    else
      let rs := avg_gain ⊘ avg_loss in
      Return (100 ⊖ 100 ⊘ (1 ⊕ rs)).

(** The loop shared by every EMA of the source:
    [for price in data[1:]: ema = (price - ema) * multiplier + ema]. *)
Definition ema_loop (multiplier : Q) (seed : Q) (rest : list Q) : Q :=
  fold_left (fun ema price => (price ⊖ ema) ⊗ multiplier ⊕ ema) rest seed.

Definition ema_multiplier (period : positive) : Q := 2 ⊘ (Qpos period ⊕ 1).

(** The local [ema] of [calculate_macd]: [data[0]] is read unguarded. *)
Definition macd_ema (data : list Q) (period : positive) : outcome Q :=
  let multiplier := ema_multiplier period in
  result ← index_first data;
  Return (ema_loop multiplier result (slice_tail data)).

(** [calculate_macd], lines 85-107. *)
Definition calculate_macd (prices : list Q) (fast slow signal : positive)
  : outcome (Q * Q * Q) :=
  if (length prices <? Pos.to_nat slow + Pos.to_nat signal)%nat
  then Return (0.0, 0.0, 0.0)
  else
    ema_fast ← macd_ema (slice_last (Pos.to_nat fast + Pos.to_nat signal) prices) fast;
    ema_slow ← macd_ema (slice_last (Pos.to_nat slow + Pos.to_nat signal) prices) slow;
    let macd_line := ema_fast ⊖ ema_slow in
    let signal_line := macd_line ⊗ 0.9 in
    let histogram := macd_line ⊖ signal_line in
    Return (macd_line, signal_line, histogram).

Definition calculate_macd_default (prices : list Q) := calculate_macd prices 12 26 9.

(** True range, shared by [calculate_adx] and [calculate_atr]:
    [np.maximum(high[1:] - low[1:],
                np.maximum(np.abs(high[1:] - close[:-1]),
                           np.abs(low[1:] - close[:-1])))]. *)
Definition true_range (high low close : list Q) : outcome (list Q) :=
  hl ← np_sub (slice_tail high) (slice_tail low);
  hc ← np_sub (slice_tail high) (slice_init close);
  lc ← np_sub (slice_tail low) (slice_init close);
  inner ← np_maximum (np_abs hc) (np_abs lc);
  np_maximum hl inner.

(** One turn of the loop of [wilder_smooth]:
    [result[i] = result[i-1] - (result[i-1] / period) + arr[i]].
    Both reads are in range for every [i] the loop visits. *)
Definition wilder_step (period : positive) (arr result : list Q) (i : nat) : list Q :=
  let prev := nth (i - 1) result 0 in
  <[ i := prev ⊖ prev ⊘ Qpos period ⊕ nth i arr 0 ]> result.

(** The local [wilder_smooth] of [calculate_adx]: [result] starts as zeros,
    the store at [period-1] raises IndexError when [arr] is shorter than
    [period], then the loop runs over [range(period, len(arr))]. *)
Definition wilder_smooth (arr : list Q) (period : positive) : outcome (list Q) :=
  let p := Pos.to_nat period in
  let result := replicate (length arr) 0 in
  if (p - 1 <? length arr)%nat then
    let result := <[ (p - 1)%nat := np_mean (take p arr) ]> result in
    Return (fold_left (wilder_step period arr) (seq p (length arr - p)) result)
  else Raise IndexError.

(** [np.where((a > b) & (a > 0), a, 0)]: directional movement. *)
Definition directional_move (a b : list Q) : outcome (list Q) :=
  gt ← np_map2 Qgtb a b;
  cond ← np_map2 andb gt (map (fun x => Qgtb x 0) a);
  np_map2 (fun (c : bool) x => if c then x else 0) cond a.

(** [calculate_adx], lines 110-144. *)
Definition calculate_adx (high low close : list Q) (period : positive) : outcome Q :=
  if (length close <? Pos.to_nat period + 1)%nat then Return 0.0
  else
    tr ← true_range high low close;
    up_move ← np_sub (slice_tail high) (slice_init high);
    down_move ← np_sub (slice_init low) (slice_tail low);
    plus_dm ← directional_move up_move down_move;
    minus_dm ← directional_move down_move up_move;
    atr ← wilder_smooth tr period;
    sm_plus ← wilder_smooth plus_dm period;
    plus_di ← np_div (np_scale 100 sm_plus) (guard_positive atr);
    sm_minus ← wilder_smooth minus_dm period;
    minus_di ← np_div (np_scale 100 sm_minus) (guard_positive atr);
    di_sum ← np_add plus_di minus_di;
    di_diff ← np_sub plus_di minus_di;
    dx ← np_div (np_scale 100 (np_abs di_diff)) (guard_positive di_sum);
    adx ← wilder_smooth dx period;
    if (0 <? length adx)%nat then index_last adx else Return 0.0.

(** [calculate_atr], lines 147-160. *)
Definition calculate_atr (high low close : list Q) (period : positive) : outcome Q :=
  if (length close <? Pos.to_nat period + 1)%nat then Return 0.0
  else
    tr ← true_range high low close;
    Return (np_mean (slice_last (Pos.to_nat period) tr)).

(** [calculate_sma], lines 163-167. *)
Definition calculate_sma (prices : list Q) (period : positive) : outcome Q :=
  if (length prices <? Pos.to_nat period)%nat then
    if (0 <? length prices)%nat then index_last prices else Return 0.0
  else Return (np_mean (slice_last (Pos.to_nat period) prices)).

(** [calculate_ema], lines 170-179. *)
Definition calculate_ema (prices : list Q) (period : positive) : outcome Q :=
  if (length prices <? 2)%nat then
    if (0 <? length prices)%nat then index_last prices else Return 0.0
  else
    let multiplier := ema_multiplier period in
    ema ← index_first prices;
    Return (ema_loop multiplier ema (slice_tail prices)).

(** ** Regime classifier *)

Inductive RegimeType : Set := BEAR_TREND | BULL_TREND | RANGING | NEUTRAL.
Inductive StrategyType : Set := RSI_MOMENTUM | MEAN_REVERSION.

(** [detect_regime] of regime_detector_v2.py, lines 182-211. *)
Definition detect_regime (adx price sma_50 adx_trend_threshold adx_range_threshold : Q)
  : RegimeType * StrategyType * Q :=
  if Qgtb adx adx_trend_threshold then
    if Qltb price sma_50 then (BEAR_TREND, RSI_MOMENTUM, 0.75)
    else (BULL_TREND, MEAN_REVERSION, 1.0)
  else if Qltb adx adx_range_threshold then (RANGING, MEAN_REVERSION, 1.25)
  else (NEUTRAL, MEAN_REVERSION, 0.5).

(** The default thresholds of the signature. *)
Definition adx_trend_default : Q := 25.0.
Definition adx_range_default : Q := 20.0.

Definition detect_regime_default (adx price sma_50 : Q) :=
  detect_regime adx price sma_50 adx_trend_default adx_range_default.

(** ** Market state *)

Record MarketState : Type := {
  price : Q;
  sma_50 : Q;
  ema_20 : Q;
  ema_200 : Q;
  rsi_7 : Q;
  rsi_14 : Q;
  adx : Q;
  macd : Q;
  macd_signal : Q;
  macd_histogram : Q;
  atr_14 : Q;
  atr_percent : Q;
  volume : Q;
  volume_sma : Q;
  volume_ratio : Q;
  regime : RegimeType;
  strategy : StrategyType;
  position_size_multiplier : Q
}.

(** [analyze_market_v2], lines 214-297.  The [symbol] argument is not read
    by the body and is left out. *)
Definition analyze_market_v2 (high low close volume : list Q) : outcome MarketState :=
  price ← index_last close;
  sma_50 ← calculate_sma close 50;
  ema_20 ← calculate_ema close 20;
  ema_200 ← calculate_ema close 200;
  rsi_7 ← calculate_rsi close 7;
  rsi_14 ← calculate_rsi close 14;
  adx ← calculate_adx high low close 14;
  '(macd, macd_signal, macd_histogram) ← calculate_macd_default close;
  atr_14 ← calculate_atr high low close 14;
  let atr_percent := if Qgtb price 0 then (atr_14 ⊘ price) ⊗ 100 else 0 in
  vol ← (if (0 <? length volume)%nat then index_last volume else Return 0);
  vol_sma ← calculate_sma volume 20;
  let vol_ratio := if Qgtb vol_sma 0 then vol ⊘ vol_sma else 1.0 in
  let '(regime, strategy, pos_mult) := detect_regime_default adx price sma_50 in
  let pos_mult :=
    if Qgtb atr_percent 5 then pos_mult ⊗ 0.7
    else if Qltb atr_percent 2 then pos_mult ⊗ 1.2
    else pos_mult in
  let pos_mult :=
    if Qgtb vol_ratio 1.5 then pos_mult ⊗ 1.1
    else if Qltb vol_ratio 0.5 then pos_mult ⊗ 0.8
    else pos_mult in
  let pos_mult := Qmax 0.25 (Qmin 1.5 pos_mult) in
  Return {|
    price := py_round price 2;
    sma_50 := py_round sma_50 2;
    ema_20 := py_round ema_20 2;
    ema_200 := py_round ema_200 2;
    rsi_7 := py_round rsi_7 2;
    rsi_14 := py_round rsi_14 2;
    adx := py_round adx 2;
    macd := py_round macd 4;
    macd_signal := py_round macd_signal 4;
    macd_histogram := py_round macd_histogram 4;
    atr_14 := py_round atr_14 2;
    atr_percent := py_round atr_percent 2;
    volume := py_round vol 2;
    volume_sma := py_round vol_sma 2;
    volume_ratio := py_round vol_ratio 2;
    regime := regime;
    strategy := strategy;
    position_size_multiplier := py_round pos_mult 2
  |}.

(** ** Signal generator *)

Inductive Action : Set := BUY | SELL | HOLD.

(** The reasons the generator appends, in order; the source renders each as
    a sentence and joins them with a semicolon, an empty list being rendered
    as the sentinel sentence. *)
Inductive Reason : Type :=
| RsiOversold (rsi7 rsi14 : Q)
| RsiOverbought (rsi7 rsi14 : Q)
| MacdBullish
| MacdBearish
| MomentumBullish
| MomentumBearish
| HighVolume (ratio : Q)
| NeutralRegime.

Record StateDigest : Type := {
  d_price : Q;
  d_rsi_7 : Q;
  d_rsi_14 : Q;
  d_adx : Q;
  d_macd_hist : Q;
  d_volume_ratio : Q
}.

Record Signal : Type := {
  action : Action;
  sig_strategy : StrategyType;
  sig_regime : RegimeType;
  confidence : Z;
  position_size : Q;
  reasoning : list Reason;
  sig_state : StateDigest
}.

Definition is_mean_reversion (s : StrategyType) : bool :=
  match s with MEAN_REVERSION => true | RSI_MOMENTUM => false end.

Definition is_neutral (r : RegimeType) : bool :=
  match r with NEUTRAL => true | _ => false end.

Definition is_buy (a : Action) : bool :=
  match a with BUY => true | _ => false end.

Definition is_sell (a : Action) : bool :=
  match a with SELL => true | _ => false end.

(** The strategy branch of [generate_signal], lines 310-342, threading
    [(action, confidence, reasons)]. *)
Definition strategy_branch (state : MarketState) : Action * Z * list Reason :=
  let init := (HOLD, 50%Z, @nil Reason) in
  if is_mean_reversion (strategy state) then
    let '(action, confidence, reasons) :=
      if Qltb (rsi_7 state) 30 && Qltb (rsi_14 state) 40 then
        (BUY, 70%Z, [RsiOversold (rsi_7 state) (rsi_14 state)])
      else if Qgtb (rsi_7 state) 70 && Qgtb (rsi_14 state) 60 then
        (SELL, 70%Z, [RsiOverbought (rsi_7 state) (rsi_14 state)])
      else init in
    if is_buy action && Qgtb (macd_histogram state) 0 then
      (action, (confidence + 10)%Z, reasons ++ [MacdBullish])
    else if is_sell action && Qltb (macd_histogram state) 0 then
      (action, (confidence + 10)%Z, reasons ++ [MacdBearish])
    else (action, confidence, reasons)
  else
    if Qgtb (rsi_14 state) 50 && Qgtb (macd_histogram state) 0
       && Qgtb (price state) (ema_20 state) then
      (BUY, 65%Z, [MomentumBullish])
    else if Qltb (rsi_14 state) 50 && Qltb (macd_histogram state) 0
            && Qltb (price state) (ema_20 state) then
      (SELL, 65%Z, [MomentumBearish])
    else init.

(** [generate_signal], lines 300-371. *)
Definition generate_signal (state : MarketState) : Signal :=
  let '(action, confidence, reasons) := strategy_branch state in
  let '(confidence, reasons) :=
    if Qgtb (volume_ratio state) 1.5
    then ((confidence + 10)%Z, reasons ++ [HighVolume (volume_ratio state)])
    else (confidence, reasons) in
  let '(confidence, reasons) :=
    if is_neutral (regime state)
    then ((confidence - 15)%Z, reasons ++ [NeutralRegime])
    else (confidence, reasons) in
  let confidence := Z.max 0 (Z.min 100 confidence) in
  {|
    action := action;
    sig_strategy := strategy state;
    sig_regime := regime state;
    confidence := confidence;
    position_size := position_size_multiplier state;
    reasoning := reasons;
    sig_state := {|
      d_price := price state;
      d_rsi_7 := rsi_7 state;
      d_rsi_14 := rsi_14 state;
      d_adx := adx state;
      d_macd_hist := macd_histogram state;
      d_volume_ratio := volume_ratio state
    |}
  |}.

End V2.

(** * regime_detector.py, the two-way classifier *)

Module V1.

Inductive RegimeType : Set := BEAR_TREND | DEFAULT.

(** [calculate_adx], lines 22-74, is the function of the same name of
    regime_detector_v2.py, statement for statement. *)
Definition calculate_adx := V2.calculate_adx.

(** [calculate_sma], lines 77-81. *)
Definition calculate_sma (prices : list Q) (period : positive) : outcome Q :=
  if (length prices <? Pos.to_nat period)%nat then
    if (0 <? length prices)%nat then index_last prices else Return 0.0
  else Return (np_mean (slice_last (Pos.to_nat period) prices)).

(** [calculate_ema], lines 84-93: the guard compares with [period]. *)
Definition calculate_ema (prices : list Q) (period : positive) : outcome Q :=
  if (length prices <? Pos.to_nat period)%nat then
    if (0 <? length prices)%nat then index_last prices else Return 0.0
  else
    let multiplier := V2.ema_multiplier period in
    ema ← index_first prices;
    Return (V2.ema_loop multiplier ema (slice_tail prices)).

(** [detect_regime], lines 96-140: the regime of the returned pair. *)
Definition detect_regime (high low close : list Q)
  (adx_threshold : Q) (trend_ma_period adx_period : positive) : outcome RegimeType :=
  current_price ← index_last close;
  adx ← calculate_adx high low close adx_period;
  sma ← calculate_sma close trend_ma_period;
  ema_200 ← calculate_ema close 200;
  if Qgtb adx adx_threshold && Qltb current_price sma
  then Return BEAR_TREND
  else Return DEFAULT.

(** [get_strategy], lines 143-156. *)
Definition get_strategy (regime : RegimeType) : V2.StrategyType :=
  match regime with
  | BEAR_TREND => V2.RSI_MOMENTUM
  | DEFAULT => V2.MEAN_REVERSION
  end.

(** [analyze_market], lines 159-186: the regime and strategy entries. *)
Definition analyze_market (high low close : list Q)
  : outcome (RegimeType * V2.StrategyType) :=
  regime ← detect_regime high low close 25.0 50 14;
  Return (regime, get_strategy regime).

End V1.

(** * bot.py: the paper-trading gate *)

Module Bot.

(** Modelled from the spec: [SignalType] of signal_engine.py, a module that
    is not among the sources.  The five levels are those of the five-level
    engine of the specification, and the keys of [signal_emoji] in [scan]. *)
Inductive SignalType : Set := STRONG_LONG | LONG | NEUTRAL | SHORT | STRONG_SHORT.

(** Modelled from the spec: [CompositeSignal] of signal_engine.py, reduced
    to the attributes that [execute_signal] reads. *)
Record CompositeSignal : Type := {
  signal : SignalType;
  confidence : Q;
  price : Q
}.

Inductive Side : Set := long | short.

(** An entry of [state['positions']]. *)
Record Position : Type := {
  entry_price : Q;
  qty : Q;
  side : Side;
  entry_time : string;
  signal_confidence : Q
}.

(** An entry of [state['trades']]: the position it closes and the exit. *)
Record Trade : Type := {
  closed : Position;
  exit_price : Q;
  exit_time : string;
  pnl : Q;
  reason : string
}.

(** [self.state], lines 65-71. *)
Record BotState : Type := {
  balance : Q;
  positions : gmap string Position;
  trades : list Trade;
  signals_generated : nat;
  start_time : string
}.

(** The attributes of [TradingBot] that [execute_signal] reads; [alerter]
    says whether an alert sender is attached. *)
Record TradingBot : Type := {
  position_size_pct : Q;
  stop_loss_pct : Q;
  take_profit_pct : Q;
  alerter : bool;
  state : BotState
}.

(** What [execute_signal] prints. *)
Inductive Message : Type :=
| ConfidenceTooLow (confidence : Q)
| AlreadyHavePosition (pair : string)
| PaperTrade (side : Side) (pair : string) (price qty : Q).

(** The effects of [execute_signal] on the outside, in order: a printed
    line, an alert (the payload of [to_alert_dict] with the two prices
    added), a snapshot written by [_save_state]. *)
Inductive Event : Type :=
| Print (m : Message)
| SendSignal (s : CompositeSignal) (stop_loss take_profit : Q)
| SaveState (st : BotState).

Definition is_neutral (s : SignalType) : bool :=
  match s with NEUTRAL => true | _ => false end.

Definition is_long (s : SignalType) : bool :=
  match s with LONG | STRONG_LONG => true | _ => false end.

(** [TradingBot.execute_signal], lines 169-211.  [now] is the reading of the
    clock taken for [entry_time]; the result is the state left in
    [self.state] and the trace of effects.  [signal.price] is a Python
    float, a division by zero raises. *)
Definition execute_signal (bot : TradingBot) (now : string) (pair : string)
  (sig : CompositeSignal) : outcome (BotState * list Event) :=
  let st := state bot in
  if is_neutral (signal sig) then Return (st, [])
  else if Qltb (confidence sig) 65 then
    Return (st, [Print (ConfidenceTooLow (confidence sig))])
  else if bool_decide (is_Some (positions st !! pair)) then
    Return (st, [Print (AlreadyHavePosition pair)])
  else
    let side := if is_long (signal sig) then long else short in
    let position_value := balance st ⊗ position_size_pct bot in
    qty ← (if Qeq_bool (price sig) 0 then Raise ZeroDivisionError
           else Return (position_value ⊘ price sig));
    let pos := {|
      entry_price := price sig;
      qty := qty;
      side := side;
      entry_time := now;
      signal_confidence := confidence sig
    |} in
    let st' := {|
      balance := balance st;
      positions := <[ pair := pos ]> (positions st);
      trades := trades st;
      signals_generated := signals_generated st;
      start_time := start_time st
    |} in
    let alert :=
      if alerter bot then
        let stop_loss :=
          match side with
          | long => price sig ⊗ (1 ⊖ stop_loss_pct bot)
          | short => price sig ⊗ (1 ⊕ stop_loss_pct bot)
          end in
        let take_profit :=
          match side with
          | long => price sig ⊗ (1 ⊕ take_profit_pct bot)
          | short => price sig ⊗ (1 ⊖ take_profit_pct bot)
          end in
        [SendSignal sig stop_loss take_profit]
      else [] in
    Return (st', [Print (PaperTrade side pair (price sig) qty)] ++ alert ++ [SaveState st']).

End Bot.

(** * bot.py: closing a position *)

Module BotExit.

Import Bot.

Inductive ExitReason : Set := stop_loss | take_profit.

(** What [check_exits] and [_close_position] do to the outside, in order. *)
Inductive ExitEvent : Type :=
| PrintStopLoss (pair : string) (current_price pnl_pct : Q)
| PrintTakeProfit (pair : string) (current_price pnl_pct : Q)
| PrintClosed (pair : string) (pnl balance : Q)
| SendTradeClosed (pair : string) (side : Side) (entry exit pnl : Q)
| SaveExitState (st : BotState).

Definition reason_text (r : ExitReason) : string :=
  match r with
  | stop_loss => "stop_loss"
  | take_profit => "take_profit"
  end.

(** [(exit_price - pos['entry_price']) * pos['qty']], negated for a short. *)
Definition position_pnl (pos : Position) (exit_price : Q) : Q :=
  let pnl := (exit_price ⊖ entry_price pos) ⊗ qty pos in
  match side pos with
  | short => - pnl
  | long => pnl
  end.

(** [TradingBot._close_position], lines 140-167.  [None] stands for the
    KeyError of [self.state['positions'].pop(pair)] when [pair] has no
    position; [now] is the clock reading taken for [exit_time]. *)
Definition close_position (bot : TradingBot) (now : string) (pair : string)
  (exit_price : Q) (reason : ExitReason) : option (BotState * list ExitEvent) :=
  let st := state bot in
  match positions st !! pair with
  | None => None
  | Some pos =>
      let pnl := position_pnl pos exit_price in
      let st' := {|
        balance := balance st ⊕ pnl;
        positions := delete pair (positions st);
        trades := trades st ++ [{|
          closed := pos;
          exit_price := exit_price;
          exit_time := now;
          pnl := pnl;
          Bot.reason := reason_text reason
        |}];
        signals_generated := signals_generated st;
        start_time := start_time st
      |} in
      let alert :=
        if alerter bot
        then [SendTradeClosed pair (side pos) (entry_price pos) exit_price pnl]
        else [] in
      Some (st', [PrintClosed pair pnl (balance st')] ++ alert ++ [SaveExitState st'])
  end.

(** The profit or loss as a fraction of the entry price, as [check_exits]
    computes it, lines 129-131.  The division is by the entry price of the
    position; with a zero entry price the source divides a numpy float by
    zero, which gives inf or nan, outside the number model. *)
Definition pnl_pct (pos : Position) (current_price : Q) : Q :=
  let r := (current_price ⊖ entry_price pos) ⊘ entry_price pos in
  match side pos with
  | short => - r
  | long => r
  end.

(** The exit rule of [check_exits], lines 133-138: the stop loss is tested
    first.  The thresholds are compared with the exact quotient; at a price
    that sits exactly on a threshold the double of the source can fall on
    the other side. *)
Definition exit_rule (bot : TradingBot) (pos : Position) (current_price : Q)
  : option ExitReason :=
  let p := pnl_pct pos current_price in
  if Qle_bool p (- stop_loss_pct bot) then Some stop_loss
  else if Qle_bool (take_profit_pct bot) p then Some take_profit
  else None.

(** One turn of the loop of [TradingBot.check_exits], lines 120-138, for the
    entry [(pair, pos)] of the snapshot of the positions.  [fetched] is the
    last close of the candles that [fetch_candles] returned, [None] when it
    returned [None] (the turn is then skipped); an empty candle array, on
    which the source raises IndexError, is not among the inputs. *)
Definition check_exits_step (bot : TradingBot) (now : string) (pair : string)
  (pos : Position) (fetched : option Q) : option (BotState * list ExitEvent) :=
  match fetched with
  | None => Some (state bot, [])
  | Some current_price =>
      match exit_rule bot pos current_price with
      | Some stop_loss =>
          '(st', events) ← close_position bot now pair current_price stop_loss;
          Some (st', PrintStopLoss pair current_price (pnl_pct pos current_price)
                       :: events)
      | Some take_profit =>
          '(st', events) ← close_position bot now pair current_price take_profit;
          Some (st', PrintTakeProfit pair current_price (pnl_pct pos current_price)
                       :: events)
      | None => Some (state bot, [])
      end
  end.

(** The bot with its state replaced, as [self.state] is after a call. *)
Definition with_state (bot : TradingBot) (st : BotState) : TradingBot := {|
  position_size_pct := position_size_pct bot;
  stop_loss_pct := stop_loss_pct bot;
  take_profit_pct := take_profit_pct bot;
  alerter := alerter bot;
  state := st
|}.

End BotExit.

(** * live_signal_test.py: the analysis of one coin *)

Module Live.

(** [np.ones(len(ohlcv["close"])) * current["volume_24h"] / 24], line 92:
    the volume array is estimated, one value for every bar. *)
Definition estimated_volume (n : nat) (volume_24h : Q) : list Q :=
  replicate n ((1 ⊗ volume_24h) ⊘ 24).

(** [analyze_coin], lines 71-144, between the two fetches and the printing:
    the state and the signal it computes from the fetched arrays. *)
Definition analyze_coin (high low close : list Q) (volume_24h : Q)
  : outcome (V2.MarketState * V2.Signal) :=
  state ← V2.analyze_market_v2 high low close
            (estimated_volume (length close) volume_24h);
  Return (state, V2.generate_signal state).

End Live.

Import V2.

(** * Auxiliary definitions for the statements *)

(** The last price, or 0.0 when there is none. *)
Definition last_or_zero (prices : list Q) : Q :=
  match last prices with
  | Some x => x
  | None => 0.0
  end.

Definition nonneg (x : Q) : Prop := 0 <= x.

(** A state that is oversold on both RSI readings, in regime [r]. *)
Definition oversold_state (r : RegimeType) : MarketState := {|
  price := 100; sma_50 := 100; ema_20 := 100; ema_200 := 100;
  rsi_7 := 25; rsi_14 := 35; adx := 22;
  macd := 0; macd_signal := 0; macd_histogram := 0;
  atr_14 := 3; atr_percent := 3;
  volume := 1000; volume_sma := 1000; volume_ratio := 1;
  regime := r; strategy := MEAN_REVERSION;
  position_size_multiplier := 0.5
|}.

(** A bot with no open position and an attached alert sender. *)
Definition idle_bot : Bot.TradingBot := {|
  Bot.position_size_pct := 0.05;
  Bot.stop_loss_pct := 0.05;
  Bot.take_profit_pct := 0.05;
  Bot.alerter := true;
  Bot.state := {|
    Bot.balance := 10000;
    Bot.positions := ∅;
    Bot.trades := [];
    Bot.signals_generated := 0;
    Bot.start_time := "2026-02-03T00:00:00"
  |}
|}.

Definition weak_long : Bot.CompositeSignal :=
  {| Bot.signal := Bot.STRONG_LONG; Bot.confidence := 64; Bot.price := 50000 |}.

(** [n] bars rising by one a bar, each one wide: lows 0, 1, ..., highs
    1, 2, ...; the closes are the highs. *)
Definition rising_low (n : nat) : list Q := map inject_Z (map Z.of_nat (seq 0 n)).
Definition rising_high (n : nat) : list Q := map inject_Z (map Z.of_nat (seq 1 n)).

Definition up16_low : list Q := rising_low 16.
Definition up16_high : list Q := rising_high 16.

(** Sixty bars at 100. *)
Definition flat60 : list Q := replicate 60 100.

(** * Properties *)

(** ** Boolean comparisons reflect the order of the rationals *)

Lemma Qltb_lt (x y : Q) : Qltb x y = true <-> x < y.
Proof.
  unfold Qltb. rewrite negb_true_iff.
  destruct (Qle_bool y x) eqn:E.
  - apply Qle_bool_iff in E. split; [discriminate | intros H; exfalso; lra].
  - split; [intros _ | reflexivity].
    apply Qnot_le_lt. intros H. apply Qle_bool_iff in H. congruence.
Qed.

Lemma Qltb_ge (x y : Q) : Qltb x y = false <-> y <= x.
Proof.
  unfold Qltb. rewrite negb_false_iff. apply Qle_bool_iff.
Qed.

Lemma Qgtb_gt (x y : Q) : Qgtb x y = true <-> y < x.
Proof. apply Qltb_lt. Qed.

Lemma Qgtb_le (x y : Q) : Qgtb x y = false <-> x <= y.
Proof. apply Qltb_ge. Qed.

(** ** Regime classification *)

(** C1: with the default thresholds, [detect_regime] follows the ordered
    decision table on every triple: adx > 25 and price < sma_50 gives
    BEAR_TREND / RSI_MOMENTUM / 0.75; adx > 25 and price >= sma_50 gives
    BULL_TREND / MEAN_REVERSION / 1.0; adx < 20 gives RANGING /
    MEAN_REVERSION / 1.25; anything else gives NEUTRAL / MEAN_REVERSION /
    0.5.  The bounds are exclusive: adx equal to 25 and adx equal to 20 are
    both NEUTRAL. *)
Theorem detect_regime_decision_table (adx price sma_50 : Q) :
  (25 < adx -> price < sma_50 ->
     detect_regime_default adx price sma_50 = (BEAR_TREND, RSI_MOMENTUM, 0.75)) /\
  (25 < adx -> sma_50 <= price ->
     detect_regime_default adx price sma_50 = (BULL_TREND, MEAN_REVERSION, 1.0)) /\
  (adx < 20 ->
     detect_regime_default adx price sma_50 = (RANGING, MEAN_REVERSION, 1.25)) /\
  (20 <= adx -> adx <= 25 ->
     detect_regime_default adx price sma_50 = (NEUTRAL, MEAN_REVERSION, 0.5)) /\
  (adx == 25 ->
     detect_regime_default adx price sma_50 = (NEUTRAL, MEAN_REVERSION, 0.5)) /\
  (adx == 20 ->
     detect_regime_default adx price sma_50 = (NEUTRAL, MEAN_REVERSION, 0.5)).
Proof.
  unfold detect_regime_default, detect_regime, adx_trend_default, adx_range_default.
  destruct (Qgtb adx 25.0) eqn:Htrend;
    [apply Qgtb_gt in Htrend | apply Qgtb_le in Htrend];
    destruct (Qltb price sma_50) eqn:Hbear;
    [apply Qltb_lt in Hbear | apply Qltb_ge in Hbear
    |apply Qltb_lt in Hbear | apply Qltb_ge in Hbear];
    destruct (Qltb adx 20.0) eqn:Hrange;
    try (apply Qltb_lt in Hrange); try (apply Qltb_ge in Hrange);
    repeat split; intros; try reflexivity; exfalso; lra.
Qed.

Lemma detect_regime_decision_table_witness :
  detect_regime_default 30 90 100 = (BEAR_TREND, RSI_MOMENTUM, 0.75) /\
  detect_regime_default 30 100 100 = (BULL_TREND, MEAN_REVERSION, 1.0) /\
  detect_regime_default 10 100 100 = (RANGING, MEAN_REVERSION, 1.25) /\
  detect_regime_default 22 100 100 = (NEUTRAL, MEAN_REVERSION, 0.5) /\
  detect_regime_default 25 90 100 = (NEUTRAL, MEAN_REVERSION, 0.5) /\
  detect_regime_default 20 90 100 = (NEUTRAL, MEAN_REVERSION, 0.5).
Proof.
  refine (conj _ (conj _ (conj _ (conj _ (conj _ _))))).
  - apply (proj1 (detect_regime_decision_table 30 90 100)); reflexivity.
  - apply (proj1 (proj2 (detect_regime_decision_table 30 100 100)));
      [reflexivity | discriminate].
  - apply (proj1 (proj2 (proj2 (detect_regime_decision_table 10 100 100))));
      reflexivity.
  - apply (proj1 (proj2 (proj2 (proj2 (detect_regime_decision_table 22 100 100)))));
      discriminate.
  - apply (proj1 (proj2 (proj2 (proj2 (proj2 (detect_regime_decision_table 25 90 100))))));
      reflexivity.
  - apply (proj2 (proj2 (proj2 (proj2 (proj2 (detect_regime_decision_table 20 90 100))))));
      reflexivity.
Defined.

(** ** Arithmetic in lowest terms is exact arithmetic *)

Lemma nadd_correct (x y : Q) : x ⊕ y == x + y.
Proof. apply Qred_correct. Qed.

Lemma nsub_correct (x y : Q) : x ⊖ y == x - y.
Proof. apply Qred_correct. Qed.

Lemma nmul_correct (x y : Q) : x ⊗ y == x * y.
Proof. apply Qred_correct. Qed.

Lemma ndiv_correct (x y : Q) : x ⊘ y == x / y.
Proof. apply Qred_correct. Qed.

Ltac exact_arith :=
  rewrite ?nadd_correct, ?nsub_correct, ?nmul_correct, ?ndiv_correct.

Lemma Qsum_correct (l : list Q) : Qsum l == fold_right Qplus 0 l.
Proof.
  induction l as [|x l IH]; simpl.
  - reflexivity.
  - rewrite nadd_correct, IH. reflexivity.
Qed.

(** ** Slices *)

Lemma length_slice_last {A : Type} (k : nat) (l : list A) :
  (0 < k)%nat -> length (slice_last k l) = Nat.min k (length l).
Proof.
  intros Hk. unfold slice_last.
  destruct (k =? 0)%nat eqn:E; [apply Nat.eqb_eq in E; lia|].
  rewrite length_drop. lia.
Qed.

Lemma slice_last_whole {A : Type} (k : nat) (l : list A) :
  (0 < k)%nat -> (k <= length l)%nat ->
  slice_last k l = drop (length l - k) l /\ length (slice_last k l) = k.
Proof.
  intros Hk Hle. split.
  - unfold slice_last. destruct (k =? 0)%nat eqn:E; [apply Nat.eqb_eq in E; lia|].
    reflexivity.
  - rewrite length_slice_last by exact Hk. lia.
Qed.

Lemma index_first_returns (l : list Q) :
  (0 < length l)%nat -> exists x, index_first l = Return x.
Proof.
  destruct l as [|x l]; simpl; [lia | eauto].
Qed.

Lemma index_last_returns (l : list Q) :
  (0 < length l)%nat -> exists x, last l = Some x /\ index_last l = Return x.
Proof.
  intros Hl. unfold index_last.
  destruct (last l) as [x|] eqn:E; [eauto|].
  apply last_None in E. subst l. simpl in Hl. lia.
Qed.

(** ** Simple moving average *)

(** C4 (as amended): on a non-empty array with fewer than [period]
    elements [calculate_sma] returns the last element; on an array of at
    least [period] elements it returns the arithmetic mean of the trailing
    [period] elements.  Both detectors share the function. *)
Theorem calculate_sma_last_or_trailing_mean (prices : list Q) (period : positive) :
  ((0 < length prices)%nat -> (length prices < Pos.to_nat period)%nat ->
     exists x, last prices = Some x /\
       V2.calculate_sma prices period = Return x /\
       V1.calculate_sma prices period = Return x) /\
  ((Pos.to_nat period <= length prices)%nat ->
     exists m, V2.calculate_sma prices period = Return m /\
       V1.calculate_sma prices period = Return m /\
       m == fold_right Qplus 0 (drop (length prices - Pos.to_nat period) prices)
            / Qpos period).
Proof.
  split.
  - intros Hne Hshort.
    destruct (index_last_returns prices Hne) as [x [Hlast Hx]].
    exists x. unfold V2.calculate_sma, V1.calculate_sma.
    apply Nat.ltb_lt in Hshort. apply Nat.ltb_lt in Hne.
    rewrite Hshort, Hne. auto.
  - intros Hlong.
    exists (np_mean (slice_last (Pos.to_nat period) prices)).
    unfold V2.calculate_sma, V1.calculate_sma.
    apply Nat.ltb_ge in Hlong as Hguard. rewrite Hguard.
    split; [reflexivity | split; [reflexivity|]].
    apply Nat.ltb_ge in Hguard.
    destruct (slice_last_whole (Pos.to_nat period) prices) as [Hs Hl];
      [lia | exact Hlong |].
    unfold np_mean, Qlen. rewrite Hl, Hs.
    rewrite ndiv_correct, Qsum_correct.
    unfold Qpos. rewrite positive_nat_Z. reflexivity.
Qed.

Lemma calculate_sma_last_or_trailing_mean_witness :
  (exists x, last [1; 2] = Some x /\
     V2.calculate_sma [1; 2] 3 = Return x /\
     V1.calculate_sma [1; 2] 3 = Return x) /\
  (exists m, V2.calculate_sma [1; 2; 6] 2 = Return m /\
     V1.calculate_sma [1; 2; 6] 2 = Return m /\
     m == fold_right Qplus 0 (drop (length [1; 2; 6] - Pos.to_nat 2) [1; 2; 6])
          / Qpos 2).
Proof.
  split.
  - apply (proj1 (calculate_sma_last_or_trailing_mean [1; 2] 3)); simpl; lia.
  - apply (proj2 (calculate_sma_last_or_trailing_mean [1; 2; 6] 2)); simpl; lia.
Defined.

(** C4 (as stated) fails: with two prices and a period of three the claim
    asks for their mean, 3/2; the code returns the last price, 2. *)
Lemma calculate_sma_short_is_not_mean :
  V2.calculate_sma [1; 2] 3 = Return 2 /\
  V1.calculate_sma [1; 2] 3 = Return 2 /\
  ~ (2 == (1 + 2) / 2).
Proof.
  split; [reflexivity | split; [reflexivity|]].
  intros H. vm_compute in H. discriminate.
Qed.

(** ** Signal generator *)

(** C5 (as amended): a MEAN_REVERSION state with rsi_7 = 25 and rsi_14 = 35
    always yields BUY; the confidence is at least 70 unless the regime is
    NEUTRAL, whose deduction of 15 leaves at least 55. *)
Theorem mean_reversion_oversold_buys (st : MarketState) :
  strategy st = MEAN_REVERSION -> rsi_7 st == 25 -> rsi_14 st == 35 ->
  action (generate_signal st) = BUY /\
  (55 <= confidence (generate_signal st))%Z /\
  (regime st <> NEUTRAL -> (70 <= confidence (generate_signal st))%Z).
Proof.
  intros Hs H7 H14.
  assert (E7 : Qltb (rsi_7 st) 30 = true) by (apply Qltb_lt; lra).
  assert (E14 : Qltb (rsi_14 st) 40 = true) by (apply Qltb_lt; lra).
  unfold generate_signal, strategy_branch.
  rewrite Hs, E7, E14. simpl.
  destruct (Qgtb (macd_histogram st) 0);
    destruct (Qgtb (volume_ratio st) 1.5);
    destruct (regime st); simpl;
    (split; [reflexivity | split; [lia | intros Hn; try congruence; lia]]).
Qed.

Lemma mean_reversion_oversold_buys_witness :
  action (generate_signal (oversold_state RANGING)) = BUY /\
  (55 <= confidence (generate_signal (oversold_state RANGING)))%Z /\
  (regime (oversold_state RANGING) <> NEUTRAL ->
   (70 <= confidence (generate_signal (oversold_state RANGING)))%Z).
Proof.
  apply (mean_reversion_oversold_buys (oversold_state RANGING)); reflexivity.
Defined.

(** C5 (as stated) fails: in the NEUTRAL regime, with a flat MACD histogram
    and an ordinary volume, the signal is BUY with confidence 55. *)
Lemma neutral_regime_buy_below_70 :
  strategy (oversold_state NEUTRAL) = MEAN_REVERSION /\
  rsi_7 (oversold_state NEUTRAL) == 25 /\
  rsi_14 (oversold_state NEUTRAL) == 35 /\
  action (generate_signal (oversold_state NEUTRAL)) = BUY /\
  confidence (generate_signal (oversold_state NEUTRAL)) = 55%Z /\
  ~ (70 <= confidence (generate_signal (oversold_state NEUTRAL)))%Z.
Proof.
  repeat (split; [reflexivity|]).
  vm_compute. intros H. apply H. reflexivity.
Qed.

(** ** MACD *)

Lemma macd_ema_returns (data : list Q) (period : positive) :
  (0 < length data)%nat -> exists e, macd_ema data period = Return e.
Proof.
  destruct data as [|x data]; simpl; [lia | intros _].
  unfold macd_ema. simpl. eauto.
Qed.

(** C6: on at least [slow + signal] prices [calculate_macd] returns a signal
    line equal to 0.9 times the MACD line and a histogram equal to the MACD
    line minus the signal line, that is 0.1 times the MACD line. *)
Theorem macd_signal_line_is_scaled_macd_line
  (prices : list Q) (fast slow signal : positive) :
  (Pos.to_nat slow + Pos.to_nat signal <= length prices)%nat ->
  exists macd_line signal_line histogram,
    calculate_macd prices fast slow signal
      = Return (macd_line, signal_line, histogram) /\
    signal_line == 0.9 * macd_line /\
    histogram == macd_line - signal_line /\
    histogram == 0.1 * macd_line.
Proof.
  intros Hlen. unfold calculate_macd.
  apply Nat.ltb_ge in Hlen as Hguard. rewrite Hguard.
  destruct (macd_ema_returns
              (slice_last (Pos.to_nat fast + Pos.to_nat signal) prices) fast)
    as [ef Hf]; [rewrite length_slice_last; lia|].
  destruct (macd_ema_returns
              (slice_last (Pos.to_nat slow + Pos.to_nat signal) prices) slow)
    as [es Hs]; [rewrite length_slice_last; lia|].
  rewrite Hf, Hs. simpl.
  eexists _, _, _. split; [reflexivity|].
  repeat split; exact_arith; lra.
Qed.

Lemma macd_signal_line_is_scaled_macd_line_witness :
  exists macd_line signal_line histogram,
    calculate_macd (map inject_Z (map Z.of_nat (seq 1 35))) 12 26 9
      = Return (macd_line, signal_line, histogram) /\
    signal_line == 0.9 * macd_line /\
    histogram == macd_line - signal_line /\
    histogram == 0.1 * macd_line.
Proof.
  apply (macd_signal_line_is_scaled_macd_line
           (map inject_Z (map Z.of_nat (seq 1 35))) 12 26 9).
  vm_compute. lia.
Defined.

(** ** Short input *)

Lemma guarded_last (prices : list Q) :
  (if (0 <? length prices)%nat then index_last prices else Return 0.0)
  = Return (last_or_zero prices).
Proof.
  unfold last_or_zero, index_last.
  destruct prices as [|x prices]; [reflexivity|].
  change (0 <? length (x :: prices))%nat with true. cbv iota.
  destruct (last (x :: prices)) as [y|] eqn:E; [reflexivity|].
  apply last_None in E. discriminate E.
Qed.

Lemma calculate_ema_returns (prices : list Q) (period : positive) :
  returns (calculate_ema prices period).
Proof.
  unfold calculate_ema, returns.
  destruct (length prices <? 2)%nat eqn:Hshort.
  - rewrite guarded_last. eauto.
  - apply Nat.ltb_ge in Hshort.
    destruct (index_first_returns prices) as [x Hx]; [lia|].
    rewrite Hx. simpl. eauto.
Qed.

(** C7 (as amended): on short input no indicator raises.  [calculate_rsi]
    returns 50.0 below [period + 1] prices, [calculate_adx] and
    [calculate_atr] 0.0 below [period + 1] closes (whatever the high and low
    arrays are), [calculate_sma] the last price, or 0.0 on an empty array,
    below [period] prices, and so does [calculate_ema] of regime_detector.py.
    [calculate_ema] of regime_detector_v2.py returns the last price, or 0.0,
    only below two prices; from two prices on, however few against the
    period, it returns the recurrence seeded with the first price and run
    over the others, and it returns a value on every input. *)
Theorem indicators_short_input_defaults (period : positive) :
  (forall prices, (length prices < Pos.to_nat period + 1)%nat ->
     calculate_rsi prices period = Return 50.0) /\
  (forall high low close, (length close < Pos.to_nat period + 1)%nat ->
     calculate_adx high low close period = Return 0.0 /\
     V1.calculate_adx high low close period = Return 0.0 /\
     calculate_atr high low close period = Return 0.0) /\
  (forall prices, (length prices < Pos.to_nat period)%nat ->
     V2.calculate_sma prices period = Return (last_or_zero prices) /\
     V1.calculate_sma prices period = Return (last_or_zero prices) /\
     V1.calculate_ema prices period = Return (last_or_zero prices)) /\
  (forall prices, (length prices < 2)%nat ->
     V2.calculate_ema prices period = Return (last_or_zero prices)) /\
  (forall prices, returns (V2.calculate_ema prices period)) /\
  last_or_zero [] = 0.0 /\
  (forall prices x, last_or_zero (prices ++ [x]) = x) /\
  (forall first second rest,
     V2.calculate_ema (first :: second :: rest) period
     = Return (fold_left (fun ema price => (price ⊖ ema) ⊗ (2 ⊘ (Qpos period ⊕ 1)) ⊕ ema)
                 (second :: rest) first)).
Proof.
  refine (conj _ (conj _ (conj _ (conj _ (conj _ (conj _ (conj _ _))))))).
  - intros prices H. apply Nat.ltb_lt in H.
    unfold calculate_rsi. rewrite H. reflexivity.
  - intros high low close H. apply Nat.ltb_lt in H.
    unfold V1.calculate_adx, calculate_adx, calculate_atr. rewrite H. auto.
  - intros prices H. apply Nat.ltb_lt in H.
    unfold V2.calculate_sma, V1.calculate_sma, V1.calculate_ema.
    rewrite H, guarded_last. auto.
  - intros prices H. apply Nat.ltb_lt in H.
    unfold V2.calculate_ema. rewrite H, guarded_last. reflexivity.
  - intros prices. apply calculate_ema_returns.
  - reflexivity.
  - intros prices x. unfold last_or_zero. rewrite last_snoc. reflexivity.
  - intros first second rest. reflexivity.
Qed.

(** C7 (as stated) fails for [calculate_ema] of regime_detector_v2.py: two
    prices are short input for a period of 20, and the claim asks for the
    last price, 2; the code runs the recurrence, 1 + (2 - 1) * 2/21 = 23/21. *)
Lemma calculate_ema_v2_short_is_not_last_price :
  (length [1; 2] < Pos.to_nat 20)%nat /\
  V2.calculate_ema [1; 2] 20 = Return (23 # 21) /\
  last_or_zero [1; 2] = 2 /\
  ~ (23 # 21 == 2).
Proof.
  split; [simpl; lia|].
  split; [vm_compute; reflexivity|].
  split; [reflexivity|].
  intros H. vm_compute in H. discriminate H.
Qed.

Lemma indicators_short_input_defaults_witness :
  calculate_rsi [1; 2; 3] 14 = Return 50.0 /\
  (calculate_adx [3; 4] [1] [2; 3; 5] 14 = Return 0.0 /\
   V1.calculate_adx [3; 4] [1] [2; 3; 5] 14 = Return 0.0 /\
   calculate_atr [3; 4] [1] [2; 3; 5] 14 = Return 0.0) /\
  (V2.calculate_sma [7; 8] 50 = Return (last_or_zero [7; 8]) /\
   V1.calculate_sma [7; 8] 50 = Return (last_or_zero [7; 8]) /\
   V1.calculate_ema [7; 8] 50 = Return (last_or_zero [7; 8])) /\
  V2.calculate_ema [7] 20 = Return (last_or_zero [7]).
Proof.
  refine (conj _ (conj _ (conj _ _))).
  - apply (proj1 (indicators_short_input_defaults 14)). simpl. lia.
  - apply (proj1 (proj2 (indicators_short_input_defaults 14))). simpl. lia.
  - apply (proj1 (proj2 (proj2 (indicators_short_input_defaults 50)))).
    simpl. lia.
  - apply (proj1 (proj2 (proj2 (proj2 (indicators_short_input_defaults 20))))).
    simpl. lia.
Defined.

(** ** RSI of a constant series *)

Lemma np_diff_constant (v : Q) (l : list Q) :
  Forall (fun x => x == v) l -> Forall (fun d => d == 0) (np_diff l).
Proof.
  induction 1 as [|a l Ha Hl IH]; [constructor|].
  destruct Hl as [|b l Hb Hl]; [constructor|].
  change (np_diff (a :: b :: l)) with ((b ⊖ a) :: np_diff (b :: l)).
  constructor; [|exact IH].
  rewrite nsub_correct, Ha, Hb. ring.
Qed.

Lemma Qsum_zeros (l : list Q) : Forall (fun d => d == 0) l -> Qsum l == 0.
Proof.
  induction 1 as [|a l Ha Hl IH]; simpl; [reflexivity|].
  rewrite nadd_correct, Ha, IH. ring.
Qed.

Lemma np_mean_zeros (l : list Q) : Forall (fun d => d == 0) l -> np_mean l == 0.
Proof.
  intros H. unfold np_mean. rewrite ndiv_correct, (Qsum_zeros l H).
  unfold Qdiv. ring.
Qed.

Lemma Forall_slice_last {A : Type} (P : A -> Prop) (k : nat) (l : list A) :
  Forall P l -> Forall P (slice_last k l).
Proof.
  intros H. unfold slice_last.
  destruct (k =? 0)%nat; [exact H | apply Forall_drop, H].
Qed.

(** C10: on a constant price array of at least [period + 1] elements every
    delta is zero, the average loss is zero, and [calculate_rsi] returns
    100.0 through the zero-average-loss branch, not the neutral 50.0. *)
Theorem calculate_rsi_constant_is_100 (v : Q) (prices : list Q) (period : positive) :
  Forall (fun x => x == v) prices ->
  (Pos.to_nat period + 1 <= length prices)%nat ->
  calculate_rsi prices period = Return 100.0 /\ ~ (100.0 == 50.0).
Proof.
  intros Hconst Hlen. split; [|intros H; vm_compute in H; discriminate H].
  unfold calculate_rsi.
  apply Nat.ltb_ge in Hlen. rewrite Hlen.
  set (losses := map (fun d => if Qltb d 0 then - d else 0) (np_diff prices)).
  assert (Hloss : Forall (fun d => d == 0) losses).
  { unfold losses. apply Forall_map.
    eapply Forall_impl; [apply (np_diff_constant v), Hconst|].
    intros d Hd. cbv beta in Hd |- *.
    destruct (Qltb d 0) eqn:E; [|reflexivity].
    apply Qltb_lt in E. lra. }
  assert (Hz : Qeq_bool (np_mean (slice_last (Pos.to_nat period) losses)) 0 = true).
  { apply Qeq_bool_iff, np_mean_zeros, Forall_slice_last, Hloss. }
  rewrite Hz. reflexivity.
Qed.

Lemma calculate_rsi_constant_is_100_witness :
  calculate_rsi (replicate 60 100) 14 = Return 100.0 /\ ~ (100.0 == 50.0).
Proof.
  apply (calculate_rsi_constant_is_100 100 (replicate 60 100) 14).
  - apply Forall_replicate. reflexivity.
  - vm_compute. lia.
Defined.

(** ** The confidence gate of the paper-trading bot *)

(** C9: a composite signal whose confidence is below 65, or whose direction
    is NEUTRAL, is not acted upon: [execute_signal] returns with the bot
    state as it was (same positions, same balance), nothing is sent and
    nothing is saved; at most a line is printed. *)
Theorem execute_signal_gate
  (bot : Bot.TradingBot) (now pair : string) (sig : Bot.CompositeSignal) :
  Bot.confidence sig < 65 \/ Bot.signal sig = Bot.NEUTRAL ->
  exists st' trace,
    Bot.execute_signal bot now pair sig = Return (st', trace) /\
    st' = Bot.state bot /\
    Bot.positions st' = Bot.positions (Bot.state bot) /\
    Bot.balance st' = Bot.balance (Bot.state bot) /\
    (forall e, In e trace -> exists m, e = Bot.Print m).
Proof.
  intros Hgate. unfold Bot.execute_signal.
  destruct (Bot.is_neutral (Bot.signal sig)) eqn:Hn.
  - exists (Bot.state bot), []. repeat split. intros e [].
  - assert (Hlow : Qltb (Bot.confidence sig) 65 = true).
    { destruct Hgate as [Hc | Hs]; [apply Qltb_lt, Hc|].
      rewrite Hs in Hn. discriminate Hn. }
    rewrite Hlow.
    exists (Bot.state bot), [Bot.Print (Bot.ConfidenceTooLow (Bot.confidence sig))].
    repeat split. intros e [He | []]. eauto.
Qed.

Lemma execute_signal_gate_witness :
  exists st' trace,
    Bot.execute_signal idle_bot "2026-02-03T01:00:00" "BTC" weak_long
      = Return (st', trace) /\
    st' = Bot.state idle_bot /\
    Bot.positions st' = Bot.positions (Bot.state idle_bot) /\
    Bot.balance st' = Bot.balance (Bot.state idle_bot) /\
    (forall e, In e trace -> exists m, e = Bot.Print m).
Proof.
  apply (execute_signal_gate idle_bot "2026-02-03T01:00:00" "BTC" weak_long).
  left. reflexivity.
Defined.

(** A signal at the gate is acted upon: the guards are not vacuous. *)
Example strong_long_opens_position :
  exists st' trace,
    Bot.execute_signal idle_bot "2026-02-03T01:00:00" "BTC"
      {| Bot.signal := Bot.STRONG_LONG; Bot.confidence := 65; Bot.price := 50000 |}
      = Return (st', trace) /\
    Bot.positions st' !! "BTC" =
      Some {| Bot.entry_price := 50000; Bot.qty := 1 # 100; Bot.side := Bot.long;
              Bot.entry_time := "2026-02-03T01:00:00";
              Bot.signal_confidence := 65 |}.
Proof.
  eexists _, _. split; vm_compute; reflexivity.
Qed.

(** ** Rounding *)

Lemma round_half_even_bounds (a b : Z) (x : Q) :
  inject_Z a <= x -> x <= inject_Z b ->
  (a <= round_half_even x <= b)%Z.
Proof.
  intros Ha Hb. unfold round_half_even.
  pose proof (Qfloor_le x) as Hfl.
  pose proof (Qlt_floor x) as Hfu.
  set (n := Qfloor x) in *.
  assert (Han : (a <= n)%Z).
  { assert (H : inject_Z a < inject_Z (n + 1)) by lra.
    rewrite <- Zlt_Qlt in H. lia. }
  assert (Hnb : (n <= b)%Z).
  { assert (H : inject_Z n <= inject_Z b) by lra.
    rewrite <- Zle_Qle in H. exact H. }
  assert (Hup : 1 # 2 <= x - inject_Z n -> (n + 1 <= b)%Z).
  { intros Hhalf.
    assert (H : inject_Z n < inject_Z b) by lra.
    rewrite <- Zlt_Qlt in H. lia. }
  destruct (Qcompare (x - inject_Z n) (1 # 2)) eqn:E.
  - apply Qeq_alt in E.
    destruct (Z.even n); [lia|].
    assert (n + 1 <= b)%Z by (apply Hup; lra). lia.
  - lia.
  - apply Qgt_alt in E.
    assert (n + 1 <= b)%Z by (apply Hup; lra). lia.
Qed.

Lemma Qdiv_hundred (x : Q) : x / 100 == x * (1 # 100).
Proof. unfold Qdiv. reflexivity. Qed.

Lemma py_round_2_bounds (a b : Z) (y : Q) :
  inject_Z a * (1 # 100) <= y -> y <= inject_Z b * (1 # 100) ->
  inject_Z a * (1 # 100) <= py_round y 2 /\
  py_round y 2 <= inject_Z b * (1 # 100).
Proof.
  intros Ha Hb. unfold py_round.
  change (inject_Z (10 ^ Z.of_nat 2)) with 100.
  destruct (round_half_even_bounds a b (y ⊗ 100)) as [Hl Hu].
  - rewrite nmul_correct. lra.
  - rewrite nmul_correct. lra.
  - rewrite Zle_Qle in Hl, Hu. rewrite ndiv_correct, Qdiv_hundred. split; lra.
Qed.

(** ** The error monad *)

Lemma bind_Return_inv {A B : Type} (m : outcome A) (k : A -> outcome B) (b : B) :
  m ≫= k = Return b -> exists a, m = Return a /\ k a = Return b.
Proof.
  destruct m as [a|e]; [eauto | discriminate].
Qed.

Lemma np_map2_zip {A B C : Type} (f : A -> B -> C) (a : list A) (b : list B) :
  length a = length b -> np_map2 f a b = Return (zip_with f a b).
Proof.
  intros H. unfold np_map2. apply Nat.eqb_eq in H. rewrite H. reflexivity.
Qed.

Lemma Forall_zip_with_both {A B C : Type} (P : A -> Prop) (R : B -> Prop)
  (S : C -> Prop) (f : A -> B -> C) (a : list A) (b : list B) :
  (forall x y, P x -> R y -> S (f x y)) ->
  Forall P a -> Forall R b -> Forall S (zip_with f a b).
Proof.
  intros Hf Ha. revert b.
  induction Ha as [|x a Hx Ha IH]; intros b Hb; [constructor|].
  destruct Hb as [|y b Hy Hb]; simpl; [constructor|].
  constructor; [apply Hf; assumption | apply IH, Hb].
Qed.

Lemma Forall_trivial {A : Type} (l : list A) : Forall (fun _ => True) l.
Proof. induction l; constructor; auto. Qed.

Lemma length_slice_tail {A : Type} (l : list A) :
  length (slice_tail l) = (length l - 1)%nat.
Proof. unfold slice_tail. apply length_drop. Qed.

Lemma length_slice_init {A : Type} (l : list A) :
  length (slice_init l) = (length l - 1)%nat.
Proof. unfold slice_init. rewrite length_take. lia. Qed.

(** ** True range and ATR *)

Lemma Qdiv_nonneg (x y : Q) : 0 <= x -> 0 <= y -> 0 <= x / y.
Proof.
  intros Hx Hy. unfold Qdiv.
  apply Qmult_le_0_compat; [exact Hx | apply Qinv_le_0_compat, Hy].
Qed.

Lemma Qmax_abs_nonneg (x y z : Q) : nonneg (Qmax x (Qmax (Qabs y) (Qabs z))).
Proof.
  unfold nonneg.
  apply Qle_trans with (Qabs y); [apply Qabs_nonneg|].
  apply Qle_trans with (Qmax (Qabs y) (Qabs z)); [apply Q.le_max_l | apply Q.le_max_r].
Qed.

Ltac lengths :=
  repeat first [ rewrite length_map | rewrite length_zip_with
               | rewrite length_slice_tail | rewrite length_slice_init ].

Ltac zip_binds :=
  repeat first [ rewrite np_map2_zip by (lengths; lia)
               | progress cbn [mbind outcome_bind] ].

Lemma true_range_returns (high low close : list Q) :
  length high = length close -> length low = length close ->
  exists tr, true_range high low close = Return tr /\
    length tr = (length close - 1)%nat /\ Forall nonneg tr.
Proof.
  intros Hh Hl. unfold true_range, np_sub, np_maximum, np_abs.
  zip_binds.
  eexists. split; [reflexivity|]. split.
  - lengths. lia.
  - set (hc := zip_with nsub (slice_tail high) (slice_init close)).
    set (lc := zip_with nsub (slice_tail low) (slice_init close)).
    assert (Hin : Forall (fun m => exists y z, m = Qmax (Qabs y) (Qabs z))
                    (zip_with Qmax (map Qabs hc) (map Qabs lc))).
    { generalize hc lc. intros a. induction a as [|y a IH]; intros [|z b]; simpl;
        constructor; eauto. }
    eapply Forall_zip_with_both; [|apply Forall_trivial | exact Hin].
    intros x m _ [y [z ->]]. apply Qmax_abs_nonneg.
Qed.

Lemma Qsum_nonneg (l : list Q) : Forall nonneg l -> 0 <= Qsum l.
Proof.
  induction 1 as [|x l Hx Hl IH]; simpl; [lra|].
  rewrite nadd_correct. unfold nonneg in Hx. lra.
Qed.

Lemma Qlen_nonneg {A : Type} (l : list A) : 0 <= Qlen l.
Proof. unfold Qlen, Qle. simpl. lia. Qed.

Lemma np_mean_nonneg (l : list Q) : Forall nonneg l -> 0 <= np_mean l.
Proof.
  intros H. unfold np_mean. rewrite ndiv_correct.
  apply Qdiv_nonneg; [apply Qsum_nonneg, H | apply Qlen_nonneg].
Qed.

(** ATR is defined and non-negative on arrays of equal lengths. *)
Lemma calculate_atr_nonneg (high low close : list Q) (period : positive) :
  length high = length close -> length low = length close ->
  exists v, calculate_atr high low close period = Return v /\ 0 <= v.
Proof.
  intros Hh Hl. unfold calculate_atr.
  destruct (length close <? Pos.to_nat period + 1)%nat.
  - exists 0.0. split; [reflexivity | lra].
  - destruct (true_range_returns high low close Hh Hl) as [tr [Htr [_ Hnn]]].
    rewrite Htr. cbn [mbind outcome_bind].
    eexists. split; [reflexivity|].
    apply np_mean_nonneg, Forall_slice_last, Hnn.
Qed.

(** ** Wilder smoothing *)

Lemma Forall_nth_default (P : Q -> Prop) (l : list Q) (i : nat) (d : Q) :
  P d -> Forall P l -> P (nth i l d).
Proof.
  intros Hd Hl. revert i.
  induction Hl as [|x l Hx Hl IH]; intros [|i]; simpl; auto.
Qed.

Lemma Qinv_Qpos (p : positive) : / Qpos p = 1 # p.
Proof. reflexivity. Qed.

Section Wilder.

Variable period : positive.
Variable arr : list Q.
Hypothesis arr_nonneg : Forall nonneg arr.

Lemma length_wilder_fold (idxs : list nat) (result : list Q) :
  length (fold_left (wilder_step period arr) idxs result) = length result.
Proof.
  revert result. induction idxs as [|i idxs IH]; intros result; simpl;
    [reflexivity|].
  rewrite IH. unfold wilder_step. apply length_insert.
Qed.

Lemma wilder_update_nonneg (prev a : Q) :
  0 <= prev -> 0 <= a -> 0 <= prev ⊖ prev ⊘ Qpos period ⊕ a.
Proof.
  intros Hp Ha. exact_arith. unfold Qdiv. rewrite Qinv_Qpos.
  assert (Hfrac : 0 <= 1 - (1 # period)).
  { unfold Qle, Qminus, Qplus, Qopp. simpl. lia. }
  pose proof (Qmult_le_0_compat _ _ Hp Hfrac) as Hprod.
  lra.
Qed.

Lemma wilder_fold_nonneg (idxs : list nat) (result : list Q) :
  Forall nonneg result ->
  Forall nonneg (fold_left (wilder_step period arr) idxs result).
Proof.
  revert result.
  induction idxs as [|i idxs IH]; intros result Hres; simpl; [exact Hres|].
  apply IH. unfold wilder_step. apply Forall_insert; [exact Hres|].
  apply wilder_update_nonneg; apply Forall_nth_default;
    (exact arr_nonneg || exact Hres || (unfold nonneg; lra)).
Qed.

Lemma wilder_smooth_returns :
  (Pos.to_nat period <= length arr)%nat ->
  exists r, wilder_smooth arr period = Return r /\
    length r = length arr /\ Forall nonneg r.
Proof.
  intros Hlen. unfold wilder_smooth.
  assert (Hin : (Pos.to_nat period - 1 <? length arr)%nat = true)
    by (apply Nat.ltb_lt; lia).
  rewrite Hin. eexists. split; [reflexivity|]. split.
  - rewrite length_wilder_fold, length_insert, length_replicate. reflexivity.
  - apply wilder_fold_nonneg.
    apply Forall_insert.
    + apply Forall_replicate. unfold nonneg. lra.
    + apply np_mean_nonneg, Forall_take, arr_nonneg.
Qed.

End Wilder.

(** ** Directional movement and ADX *)

Lemma where_positive_nonneg (g : list bool) (a : list Q) :
  Forall nonneg
    (zip_with (fun (c : bool) x => if c then x else 0)
       (zip_with andb g (map (fun x => Qgtb x 0) a)) a).
Proof.
  revert g. induction a as [|x a IH]; intros [|c g]; simpl; try constructor.
  - unfold nonneg. destruct c; simpl; [|lra].
    destruct (Qgtb x 0) eqn:E; [apply Qgtb_gt in E|]; lra.
  - apply IH.
Qed.

Lemma directional_move_returns (a b : list Q) :
  length a = length b ->
  exists dm, directional_move a b = Return dm /\
    length dm = length a /\ Forall nonneg dm.
Proof.
  intros Hab. unfold directional_move. zip_binds.
  eexists. split; [reflexivity|]. split; [lengths; lia|].
  apply where_positive_nonneg.
Qed.

Lemma guard_positive_pos (l : list Q) : Forall (fun g => 0 < g) (guard_positive l).
Proof.
  unfold guard_positive. apply Forall_map, Forall_forall. intros x _. simpl.
  destruct (Qgtb x 0) eqn:E; [apply Qgtb_gt in E; exact E | reflexivity].
Qed.

Lemma length_guard_positive (l : list Q) : length (guard_positive l) = length l.
Proof. apply length_map. Qed.

Lemma scaled_ratio_nonneg (num den : list Q) :
  Forall nonneg num ->
  Forall nonneg (zip_with ndiv (np_scale 100 num) (guard_positive den)).
Proof.
  intros Hnum.
  assert (Hscaled : Forall nonneg (np_scale 100 num)).
  { unfold np_scale. apply Forall_map.
    eapply Forall_impl; [exact Hnum|].
    intros x Hx. unfold nonneg in *. simpl. rewrite nmul_correct. lra. }
  eapply Forall_zip_with_both; [| exact Hscaled | apply guard_positive_pos].
  intros x g Hx Hg. cbv beta in Hg. unfold nonneg in *.
  rewrite ndiv_correct. apply Qdiv_nonneg; [exact Hx | lra].
Qed.

(** ADX is defined and non-negative on arrays of equal lengths. *)
Lemma calculate_adx_nonneg (high low close : list Q) (period : positive) :
  length high = length close -> length low = length close ->
  exists v, calculate_adx high low close period = Return v /\ 0 <= v.
Proof.
  intros Hh Hl. unfold calculate_adx.
  destruct (length close <? Pos.to_nat period + 1)%nat eqn:Hguard.
  - exists 0.0. split; [reflexivity | lra].
  - apply Nat.ltb_ge in Hguard.
    destruct (true_range_returns high low close Hh Hl) as [tr [Htr [Ltr Ntr]]].
    rewrite Htr. cbn [mbind outcome_bind].
    unfold np_sub, np_add, np_div. zip_binds.
    set (up_move := zip_with nsub (slice_tail high) (slice_init high)).
    set (down_move := zip_with nsub (slice_init low) (slice_tail low)).
    assert (Lup : length up_move = (length close - 1)%nat)
      by (unfold up_move; lengths; lia).
    assert (Ldown : length down_move = (length close - 1)%nat)
      by (unfold down_move; lengths; lia).
    destruct (directional_move_returns up_move down_move) as [pdm [Hp [Lp Np]]];
      [lia|].
    destruct (directional_move_returns down_move up_move) as [mdm [Hm [Lm Nm]]];
      [lia|].
    rewrite Hp, Hm. cbn [mbind outcome_bind].
    destruct (wilder_smooth_returns period tr Ntr) as [atr [Ha [La _]]]; [lia|].
    destruct (wilder_smooth_returns period pdm Np) as [sp [Hsp [Lsp Nsp]]]; [lia|].
    destruct (wilder_smooth_returns period mdm Nm) as [sm [Hsm [Lsm Nsm]]]; [lia|].
    rewrite Ha. cbn [mbind outcome_bind].
    rewrite Hsp. cbn [mbind outcome_bind].
    rewrite (np_map2_zip ndiv (np_scale 100 sp))
      by (unfold np_scale; rewrite length_map, length_guard_positive; lia).
    cbn [mbind outcome_bind].
    rewrite Hsm. cbn [mbind outcome_bind].
    rewrite (np_map2_zip ndiv (np_scale 100 sm))
      by (unfold np_scale; rewrite length_map, length_guard_positive; lia).
    cbn [mbind outcome_bind].
    set (plus_di := zip_with ndiv (np_scale 100 sp) (guard_positive atr)).
    set (minus_di := zip_with ndiv (np_scale 100 sm) (guard_positive atr)).
    assert (Lpdi : length plus_di = (length close - 1)%nat).
    { unfold plus_di, np_scale.
      rewrite length_zip_with, length_map, length_guard_positive. lia. }
    assert (Lmdi : length minus_di = (length close - 1)%nat).
    { unfold minus_di, np_scale.
      rewrite length_zip_with, length_map, length_guard_positive. lia. }
    rewrite (np_map2_zip nadd plus_di minus_di) by lia.
    cbn [mbind outcome_bind].
    rewrite (np_map2_zip nsub plus_di minus_di) by lia.
    cbn [mbind outcome_bind].
    set (di_sum := zip_with nadd plus_di minus_di).
    set (di_diff := zip_with nsub plus_di minus_di).
    rewrite (np_map2_zip ndiv (np_scale 100 (np_abs di_diff)))
      by (unfold np_scale, np_abs, di_diff, di_sum;
          rewrite !length_map, length_guard_positive, !length_zip_with; lia).
    cbn [mbind outcome_bind].
    set (dx := zip_with ndiv (np_scale 100 (np_abs di_diff)) (guard_positive di_sum)).
    assert (Ndx : Forall nonneg dx).
    { apply scaled_ratio_nonneg. unfold np_abs. apply Forall_map, Forall_forall.
      intros x _. apply Qabs_nonneg. }
    assert (Ldx : length dx = (length close - 1)%nat).
    { unfold dx, np_scale, np_abs, di_diff, di_sum.
      rewrite length_zip_with, !length_map, length_guard_positive, !length_zip_with.
      lia. }
    destruct (wilder_smooth_returns period dx Ndx) as [adx [Hadx [Ladx Nadx]]];
      [lia|].
    rewrite Hadx. cbn [mbind outcome_bind].
    assert (Hpos : (0 <? length adx)%nat = true) by (apply Nat.ltb_lt; lia).
    rewrite Hpos.
    destruct (index_last_returns adx) as [v [Hlast Hv]]; [lia|].
    exists v. split; [exact Hv|].
    apply last_Some in Hlast as [l' ->].
    apply Forall_app in Nadx as [_ Hv'].
    apply Forall_inv in Hv'. exact Hv'.
Qed.

(** ** Totality of the remaining indicators *)

Lemma calculate_sma_returns (prices : list Q) (period : positive) :
  returns (calculate_sma prices period).
Proof.
  unfold calculate_sma, returns.
  destruct (length prices <? Pos.to_nat period)%nat; [|eauto].
  rewrite guarded_last. eauto.
Qed.

Lemma calculate_rsi_returns (prices : list Q) (period : positive) :
  returns (calculate_rsi prices period).
Proof.
  unfold calculate_rsi, returns.
  destruct (length prices <? Pos.to_nat period + 1)%nat; [eauto|].
  match goal with |- context [Qeq_bool ?a ?b] => destruct (Qeq_bool a b) end; eauto.
Qed.

Lemma calculate_macd_returns (prices : list Q) (fast slow signal : positive) :
  returns (calculate_macd prices fast slow signal).
Proof.
  unfold calculate_macd, returns.
  destruct (length prices <? Pos.to_nat slow + Pos.to_nat signal)%nat eqn:Hguard;
    [eauto|].
  apply Nat.ltb_ge in Hguard.
  destruct (macd_ema_returns
              (slice_last (Pos.to_nat fast + Pos.to_nat signal) prices) fast)
    as [ef Hf]; [rewrite length_slice_last; lia|].
  destruct (macd_ema_returns
              (slice_last (Pos.to_nat slow + Pos.to_nat signal) prices) slow)
    as [es Hs]; [rewrite length_slice_last; lia|].
  rewrite Hf, Hs. cbn [mbind outcome_bind]. eauto.
Qed.

Lemma guarded_volume_returns (volume : list Q) :
  returns (if (0 <? length volume)%nat then index_last volume else Return 0).
Proof.
  unfold returns. destruct (0 <? length volume)%nat eqn:E; [|eauto].
  apply Nat.ltb_lt in E.
  destruct (index_last_returns volume E) as [x [_ Hx]]. eauto.
Qed.

(** ** Position size *)

Lemma analyze_market_v2_multiplier (high low close volume : list Q) (st : MarketState) :
  analyze_market_v2 high low close volume = Return st ->
  exists x, position_size_multiplier st = py_round (Qmax 0.25 (Qmin 1.5 x)) 2.
Proof.
  intros H. unfold analyze_market_v2 in H.
  repeat (apply bind_Return_inv in H as (? & ? & H)).
  match type of H with
  | (match ?t with pair _ _ => _ end) = _ =>
      destruct t as [[macd macd_signal] macd_histogram]
  end.
  repeat (apply bind_Return_inv in H as (? & ? & H)).
  match type of H with
  | (match ?t with pair _ _ => _ end) = _ =>
      destruct t as [[regime strategy] pos_mult]
  end.
  injection H as <-. cbn [position_size_multiplier]. eauto.
Qed.

(** C8: the position_size_multiplier of every MarketState that
    [analyze_market_v2] returns lies in [0.25, 1.5]; and the function does
    return a state on every non-empty window whose high, low and close
    arrays have one length (the volume array is free). *)
Theorem position_size_multiplier_bounds (high low close volume : list Q) :
  (forall st, analyze_market_v2 high low close volume = Return st ->
     0.25 <= position_size_multiplier st /\ position_size_multiplier st <= 1.5) /\
  (length high = length close -> length low = length close ->
   (0 < length close)%nat ->
   returns (analyze_market_v2 high low close volume)).
Proof.
  split.
  - intros st H.
    destruct (analyze_market_v2_multiplier _ _ _ _ _ H) as [x ->].
    destruct (py_round_2_bounds 25 150 (Qmax 0.25 (Qmin 1.5 x))) as [Hl Hu].
    + apply Qle_trans with 0.25; [apply Qle_lteq; right; reflexivity|].
      apply Q.le_max_l.
    + apply Q.max_lub.
      * apply Qle_bool_iff. reflexivity.
      * apply Qle_trans with 1.5; [apply Q.le_min_l|].
        apply Qle_bool_iff. reflexivity.
    + change (inject_Z 25) with 25 in Hl. change (inject_Z 150) with 150 in Hu.
      split; lra.
  - intros Hh Hl Hne. unfold analyze_market_v2.
    destruct (index_last_returns close Hne) as [price [_ Hprice]].
    destruct (calculate_sma_returns close 50) as [sma_50 Hsma].
    destruct (calculate_ema_returns close 20) as [ema_20 He20].
    destruct (calculate_ema_returns close 200) as [ema_200 He200].
    destruct (calculate_rsi_returns close 7) as [rsi_7 Hr7].
    destruct (calculate_rsi_returns close 14) as [rsi_14 Hr14].
    destruct (calculate_adx_nonneg high low close 14 Hh Hl) as [adx [Hadx _]].
    destruct (calculate_macd_returns close 12 26 9) as [[[m ms] mh] Hmacd].
    destruct (calculate_atr_nonneg high low close 14 Hh Hl) as [atr [Hatr _]].
    destruct (guarded_volume_returns volume) as [vol Hvol].
    destruct (calculate_sma_returns volume 20) as [vol_sma Hvsma].
    unfold calculate_macd_default.
    rewrite Hprice; cbn [mbind outcome_bind].
    rewrite Hsma; cbn [mbind outcome_bind].
    rewrite He20; cbn [mbind outcome_bind].
    rewrite He200; cbn [mbind outcome_bind].
    rewrite Hr7; cbn [mbind outcome_bind].
    rewrite Hr14; cbn [mbind outcome_bind].
    rewrite Hadx; cbn [mbind outcome_bind].
    rewrite Hmacd; cbn [mbind outcome_bind].
    rewrite Hatr; cbn [mbind outcome_bind].
    rewrite Hvol; cbn [mbind outcome_bind].
    rewrite Hvsma; cbn [mbind outcome_bind].
    destruct (detect_regime_default adx price sma_50) as [[regime strategy] pos_mult].
    unfold returns. eauto.
Qed.

Lemma position_size_multiplier_bounds_witness :
  returns (analyze_market_v2 up16_high up16_low up16_high []) /\
  (forall st, analyze_market_v2 up16_high up16_low up16_high [] = Return st ->
     0.25 <= position_size_multiplier st /\ position_size_multiplier st <= 1.5).
Proof.
  split.
  - apply (proj2 (position_size_multiplier_bounds up16_high up16_low up16_high []));
      vm_compute; (reflexivity || lia).
  - apply (proj1 (position_size_multiplier_bounds up16_high up16_low up16_high [])).
Defined.

(** ** ADX on a steady rise *)

(** C2 (the bound fails on the code): ADX is not bounded by 100.  On sixteen
    bars rising by one a bar (equal lengths, low <= close <= high) and
    period 14, the directional index is 100 from the fourteenth difference
    on; [wilder_smooth] seeds ADX with the mean 100/14 and then adds the next
    index undivided, so [calculate_adx] returns 5225/49, about 106.6.  The
    non-negative half of the claim is [calculate_adx_nonneg] and
    [calculate_atr_nonneg]. *)
Theorem adx_above_100_on_steady_rise :
  length up16_high = length up16_low /\
  Forall2 Qle up16_low up16_high /\
  calculate_adx up16_high up16_low up16_high 14 = Return (5225 # 49) /\
  V1.calculate_adx up16_high up16_low up16_high 14 = Return (5225 # 49) /\
  100 < 5225 # 49.
Proof.
  split; [reflexivity|]. split.
  - unfold up16_low, up16_high, rising_low, rising_high. cbn [seq map].
    repeat (constructor; [discriminate|]). constructor.
  - split; [vm_compute; reflexivity|].
    split; [vm_compute; reflexivity | reflexivity].
Qed.

(** On the sixty-bar window the analyzer works with, the same rise reads
    above 1350: the running sum tends to 14 times the index. *)
Example adx_on_sixty_rising_bars :
  exists v,
    calculate_adx (rising_high 60) (rising_low 60) (rising_high 60) 14 = Return v /\
    1350 < v.
Proof.
  eexists. split; [vm_compute; reflexivity|]. reflexivity.
Qed.

(** ** The flat window *)

Lemma overbought_ranging_sells (st : MarketState) :
  strategy st = MEAN_REVERSION -> regime st = RANGING ->
  rsi_7 st = 100 -> rsi_14 st = 100 -> macd_histogram st = 0 ->
  action (generate_signal st) = SELL /\
  confidence (generate_signal st)
    = (if Qgtb (volume_ratio st) 1.5 then 80 else 70)%Z /\
  reasoning (generate_signal st)
    = RsiOverbought 100 100
      :: (if Qgtb (volume_ratio st) 1.5 then [HighVolume (volume_ratio st)] else []).
Proof.
  intros Hs Hr H7 H14 Hm.
  assert (Hb : strategy_branch st = (SELL, 70%Z, [RsiOverbought 100 100])).
  { unfold strategy_branch. rewrite Hs, H7, H14, Hm. reflexivity. }
  unfold generate_signal. rewrite Hb, Hr.
  destruct (Qgtb (volume_ratio st) 1.5); cbn; repeat split.
Qed.

Lemma flat_window_state (volume : list Q) :
  exists st, analyze_market_v2 flat60 flat60 flat60 volume = Return st /\
    rsi_7 st = 100 /\ rsi_14 st = 100 /\ adx st = 0 /\ macd_histogram st = 0 /\
    regime st = RANGING /\ strategy st = MEAN_REVERSION.
Proof.
  unfold analyze_market_v2, calculate_macd_default.
  replace (index_last flat60) with (Return 100) by (vm_compute; reflexivity).
  replace (calculate_sma flat60 50) with (Return 100) by (vm_compute; reflexivity).
  replace (calculate_ema flat60 20) with (Return 100) by (vm_compute; reflexivity).
  replace (calculate_ema flat60 200) with (Return 100) by (vm_compute; reflexivity).
  replace (calculate_rsi flat60 7) with (Return 100.0) by (vm_compute; reflexivity).
  replace (calculate_rsi flat60 14) with (Return 100.0) by (vm_compute; reflexivity).
  replace (calculate_adx flat60 flat60 flat60 14) with (Return 0)
    by (vm_compute; reflexivity).
  replace (calculate_macd flat60 12 26 9) with (Return (0, 0, 0))
    by (vm_compute; reflexivity).
  replace (calculate_atr flat60 flat60 flat60 14) with (Return 0)
    by (vm_compute; reflexivity).
  cbn [mbind outcome_bind].
  destruct (guarded_volume_returns volume) as [vol ->].
  destruct (calculate_sma_returns volume 20) as [vol_sma ->].
  cbn [mbind outcome_bind].
  replace (detect_regime_default 0 100 100) with (RANGING, MEAN_REVERSION, 1.25)
    by reflexivity.
  cbv beta iota zeta.
  eexists. split; [reflexivity|].
  cbn [rsi_7 rsi_14 adx macd_histogram regime strategy].
  repeat split; vm_compute; reflexivity.
Qed.

(** C3 (as amended): on the flat window of 60 bars at 100, whatever the
    volumes, both RSI readings are 100 (zero average loss), ADX is 0, the
    regime is RANGING (DEFAULT in the two-way classifier), the strategy is
    MEAN_REVERSION, and the signal is SELL for the one reason that RSI is
    overbought, with confidence exactly 70; when the volume ratio of the
    state exceeds 1.5 the high-volume bonus makes it exactly 80 and adds its
    reason. *)
Theorem flat_window_is_overbought_sell (volume : list Q) :
  exists st, analyze_market_v2 flat60 flat60 flat60 volume = Return st /\
    rsi_7 st = 100 /\ rsi_14 st = 100 /\ adx st = 0 /\
    regime st = RANGING /\ strategy st = MEAN_REVERSION /\
    action (generate_signal st) = SELL /\
    confidence (generate_signal st)
      = (if Qgtb (volume_ratio st) 1.5 then 80 else 70)%Z /\
    reasoning (generate_signal st)
      = RsiOverbought 100 100
        :: (if Qgtb (volume_ratio st) 1.5 then [HighVolume (volume_ratio st)] else []) /\
    V1.analyze_market flat60 flat60 flat60 = Return (V1.DEFAULT, MEAN_REVERSION).
Proof.
  destruct (flat_window_state volume) as [st [Hst [H7 [H14 [Hadx [Hm [Hr Hs]]]]]]].
  destruct (overbought_ranging_sells st Hs Hr H7 H14 Hm) as [Ha [Hc Hreason]].
  exists st. repeat (split; [assumption|]).
  vm_compute. reflexivity.
Qed.

(** Both confidences are reached: 70 on a constant volume, 80 when the last
    bar trades twice the volume of the bars before it. *)
Example flat_window_confidence_70_and_80 :
  (exists st,
     analyze_market_v2 flat60 flat60 flat60 (replicate 60 1000) = Return st /\
     volume_ratio st = 1 /\ confidence (generate_signal st) = 70%Z) /\
  (exists st,
     analyze_market_v2 flat60 flat60 flat60 (replicate 59 1000 ++ [2000]) = Return st /\
     volume_ratio st = 19 # 10 /\ confidence (generate_signal st) = 80%Z).
Proof.
  split; eexists; (split; [vm_compute; reflexivity|]); split; vm_compute; reflexivity.
Qed.

(** C3 (as stated) fails: with a constant volume of 1000 the flat window
    reads RSI 100, not a neutral value, and the signal is SELL, not HOLD. *)
Lemma flat_window_is_not_hold :
  exists st,
    analyze_market_v2 flat60 flat60 flat60 (replicate 60 1000) = Return st /\
    rsi_7 st = 100 /\ rsi_14 st = 100 /\
    action (generate_signal st) = SELL /\
    action (generate_signal st) <> HOLD /\
    ~ (rsi_14 st == 50).
Proof.
  eexists. split; [vm_compute; reflexivity|].
  repeat (split; [vm_compute; reflexivity|]).
  split; [discriminate|].
  intros H. vm_compute in H. discriminate H.
Qed.

(** * Further properties of the indicator library *)

Ltac exact_arith_all :=
  repeat first [ rewrite nadd_correct | rewrite nsub_correct
               | rewrite nmul_correct | rewrite ndiv_correct ].

(** ** RSI *)

Lemma gains_nonneg (deltas : list Q) :
  Forall nonneg (map (fun d => if Qgtb d 0 then d else 0) deltas).
Proof.
  apply Forall_map, Forall_forall. intros d _. unfold nonneg. simpl.
  destruct (Qgtb d 0) eqn:E; [apply Qgtb_gt in E|]; lra.
Qed.

Lemma losses_nonneg (deltas : list Q) :
  Forall nonneg (map (fun d => if Qltb d 0 then - d else 0) deltas).
Proof.
  apply Forall_map, Forall_forall. intros d _. unfold nonneg. simpl.
  destruct (Qltb d 0) eqn:E; [apply Qltb_lt in E|]; lra.
Qed.

Lemma slice_last_map {A B : Type} (f : A -> B) (k : nat) (l : list A) :
  slice_last k (map f l) = map f (slice_last k l).
Proof.
  unfold slice_last. destruct (k =? 0)%nat; [reflexivity|].
  rewrite length_map. apply skipn_map.
Qed.

(** X1: [calculate_rsi] returns a value between 0 and 100 on every price
    array and every period. *)
Theorem calculate_rsi_between_0_and_100 (prices : list Q) (period : positive) :
  exists v, calculate_rsi prices period = Return v /\ 0 <= v /\ v <= 100.
Proof.
  unfold calculate_rsi.
  destruct (length prices <? Pos.to_nat period + 1)%nat.
  { exists 50.0. split; [reflexivity|]. split; apply Qle_bool_iff; reflexivity. }
  set (gains := map (fun d => if Qgtb d 0 then d else 0) (np_diff prices)).
  set (losses := map (fun d => if Qltb d 0 then - d else 0) (np_diff prices)).
  set (avg_gain := np_mean (slice_last (Pos.to_nat period) gains)).
  set (avg_loss := np_mean (slice_last (Pos.to_nat period) losses)).
  assert (Hg : 0 <= avg_gain)
    by (apply np_mean_nonneg, Forall_slice_last, gains_nonneg).
  assert (Hl : 0 <= avg_loss)
    by (apply np_mean_nonneg, Forall_slice_last, losses_nonneg).
  destruct (Qeq_bool avg_loss 0) eqn:Hz.
  { exists 100.0. split; [reflexivity|]. split; apply Qle_bool_iff; reflexivity. }
  apply Qeq_bool_neq in Hz.
  eexists. split; [reflexivity|].
  exact_arith_all.
  assert (Hrs : 0 <= avg_gain / avg_loss) by (apply Qdiv_nonneg; assumption).
  set (t := 1 + avg_gain / avg_loss) in *.
  assert (Ht : 1 <= t) by (unfold t; lra).
  assert (Hq0 : 0 <= 100 / t) by (apply Qdiv_nonneg; lra).
  assert (Hq1 : 100 / t <= 100).
  { apply Qle_shift_div_r; [lra|]. lra. }
  generalize dependent (100 / t). intros q Hq0 Hq1.
  split; lra.
Qed.

Lemma Qsum_pos (l : list Q) :
  Forall nonneg l -> Exists (fun x => 0 < x) l -> 0 < Qsum l.
Proof.
  intros Hnn Hex. induction Hex as [x l Hx | x l Hex IH]; simpl;
    rewrite nadd_correct; apply Forall_cons_1 in Hnn as [Hx' Hl].
  - pose proof (Qsum_nonneg l Hl). lra.
  - unfold nonneg in Hx'. specialize (IH Hl). lra.
Qed.

Lemma np_mean_pos (l : list Q) :
  Forall nonneg l -> Exists (fun x => 0 < x) l -> 0 < np_mean l.
Proof.
  intros Hnn Hex. unfold np_mean. rewrite ndiv_correct.
  apply Qlt_shift_div_l.
  - destruct l as [|x l]; [inversion Hex|]. unfold Qlen, Qlt. simpl. lia.
  - rewrite Qmult_0_l. apply Qsum_pos; assumption.
Qed.

(** X2: the two ends of the scale.  With at least [period + 1] prices, if
    none of the trailing [period] differences is negative, [calculate_rsi]
    returns 100.0 exactly; if none is positive and one is negative, it
    returns 0. *)
Theorem calculate_rsi_extremes (prices : list Q) (period : positive) :
  (Pos.to_nat period + 1 <= length prices)%nat ->
  let trailing := slice_last (Pos.to_nat period) (np_diff prices) in
  (Forall (fun d => 0 <= d) trailing ->
     calculate_rsi prices period = Return 100.0) /\
  (Forall (fun d => d <= 0) trailing -> Exists (fun d => d < 0) trailing ->
     exists v, calculate_rsi prices period = Return v /\ v == 0).
Proof.
  intros Hlen trailing. unfold calculate_rsi.
  apply Nat.ltb_ge in Hlen. rewrite Hlen.
  rewrite !slice_last_map. fold trailing. split.
  - intros Hup.
    assert (Hz : Qeq_bool (np_mean (map (fun d => if Qltb d 0 then - d else 0) trailing)) 0
                 = true).
    { apply Qeq_bool_iff, np_mean_zeros, Forall_map.
      eapply Forall_impl; [exact Hup|]. intros d Hd. cbv beta in Hd. simpl.
      destruct (Qltb d 0) eqn:E; [apply Qltb_lt in E; lra | reflexivity]. }
    rewrite Hz. reflexivity.
  - intros Hdown Hfall.
    assert (Hg : np_mean (map (fun d => if Qgtb d 0 then d else 0) trailing) == 0).
    { apply np_mean_zeros, Forall_map.
      eapply Forall_impl; [exact Hdown|]. intros d Hd. cbv beta in Hd. simpl.
      destruct (Qgtb d 0) eqn:E; [apply Qgtb_gt in E; lra | reflexivity]. }
    assert (Hl : 0 < np_mean (map (fun d => if Qltb d 0 then - d else 0) trailing)).
    { apply np_mean_pos; [apply losses_nonneg|].
      apply Exists_exists in Hfall as [d [Hin Hd]].
      apply Exists_exists. exists (- d). split; [|lra].
      apply list_elem_of_In, in_map_iff. exists d.
      split; [|apply list_elem_of_In, Hin].
      apply Qltb_lt in Hd. rewrite Hd. reflexivity. }
    destruct (Qeq_bool _ 0) eqn:Hz.
    { apply Qeq_bool_iff in Hz. lra. }
    eexists. split; [reflexivity|].
    exact_arith. rewrite Hg. unfold Qdiv. rewrite Qmult_0_l.
    reflexivity.
Qed.

Lemma calculate_rsi_extremes_witness :
  calculate_rsi (rising_high 16) 14 = Return 100.0 /\
  (exists v, calculate_rsi (rev (rising_high 16)) 14 = Return v /\ v == 0).
Proof.
  split.
  - apply (proj1 (calculate_rsi_extremes (rising_high 16) 14 ltac:(vm_compute; lia))).
    vm_compute. repeat (constructor; [discriminate|]). constructor.
  - apply (proj2 (calculate_rsi_extremes (rev (rising_high 16)) 14
                    ltac:(vm_compute; lia))).
    + vm_compute. repeat (constructor; [discriminate|]). constructor.
    + vm_compute. constructor. reflexivity.
Defined.

(** ** Moving averages *)

Definition between (lo hi x : Q) : Prop := lo <= x /\ x <= hi.




Lemma Qsum_between (lo hi : Q) (l : list Q) :
  Forall (between lo hi) l ->
  Qlen l * lo <= Qsum l /\ Qsum l <= Qlen l * hi.
Proof.
  induction 1 as [|x l [Hx1 Hx2] Hl [IH1 IH2]].
  - change (Qlen (@nil Q)) with 0. simpl Qsum. split; lra.
  - assert (E : Qlen (x :: l) == Qlen l + 1).
    { unfold Qlen. simpl length. rewrite Nat2Z.inj_succ, <- Z.add_1_r.
      rewrite inject_Z_plus. reflexivity. }
    simpl Qsum. rewrite nadd_correct, E. split; lra.
Qed.

Lemma np_mean_between (lo hi : Q) (l : list Q) :
  l <> [] -> Forall (between lo hi) l -> between lo hi (np_mean l).
Proof.
  intros Hne Hl. destruct (Qsum_between lo hi l Hl) as [H1 H2].
  assert (Hlen : 0 < Qlen l).
  { destruct l as [|x l]; [congruence|]. unfold Qlen, Qlt. simpl. lia. }
  unfold np_mean, between. rewrite ndiv_correct. split.
  - apply Qle_shift_div_l; [exact Hlen | lra].
  - apply Qle_shift_div_r; [exact Hlen | lra].
Qed.

Lemma last_between (lo hi : Q) (l : list Q) (x : Q) :
  Forall (between lo hi) l -> last l = Some x -> between lo hi x.
Proof.
  intros Hl Hlast. apply last_Some in Hlast as [l' ->].
  apply Forall_app in Hl as [_ Hx]. apply Forall_inv in Hx. exact Hx.
Qed.

Lemma slice_last_nonempty {A : Type} (k : nat) (l : list A) :
  (0 < k)%nat -> l <> [] -> slice_last k l <> [].
Proof.
  intros Hk Hne Hs. apply (f_equal length) in Hs.
  rewrite length_slice_last in Hs by exact Hk.
  destruct l; [congruence | simpl in Hs; lia].
Qed.

Lemma sma_between (lo hi : Q) (prices : list Q) (period : positive) :
  prices <> [] -> Forall (between lo hi) prices ->
  exists v, V2.calculate_sma prices period = Return v /\ between lo hi v.
Proof.
  intros Hne Hl. unfold V2.calculate_sma.
  destruct (length prices <? Pos.to_nat period)%nat.
  - assert (Hpos : (0 < length prices)%nat) by (destruct prices; [congruence | simpl; lia]).
    destruct (index_last_returns prices Hpos) as [x [Hlast Hx]].
    apply Nat.ltb_lt in Hpos. rewrite Hpos, Hx.
    exists x. split; [reflexivity | eapply last_between; eassumption].
  - eexists. split; [reflexivity|].
    apply np_mean_between; [apply slice_last_nonempty; [lia | exact Hne]|].
    apply Forall_slice_last, Hl.
Qed.











(** ** The range of ADX *)

Lemma dx_between (pdi mdi : list Q) :
  Forall nonneg pdi -> Forall nonneg mdi ->
  Forall (between 0 100)
    (zip_with ndiv (np_scale 100 (np_abs (zip_with nsub pdi mdi)))
       (guard_positive (zip_with nadd pdi mdi))).
Proof.
  intros Hp. revert mdi.
  induction Hp as [|a pdi Ha Hp IH]; intros mdi Hm; [constructor|].
  destruct Hm as [|b mdi Hb Hm]; [constructor|].
  simpl. constructor; [|apply IH, Hm].
  unfold nonneg, between in *. exact_arith_all.
  destruct (Qgtb (a ⊕ b) 0) eqn:E.
  - apply Qgtb_gt in E. rewrite nadd_correct in E. exact_arith_all.
    assert (Habs : Qabs (a - b) <= a + b) by (apply Qabs_Qle_condition; split; lra).
    pose proof (Qabs_nonneg (a - b)) as Habs0.
    split.
    + apply Qdiv_nonneg; lra.
    + apply Qle_shift_div_r; [exact E | lra].
  - apply Qgtb_le in E. rewrite nadd_correct in E.
    assert (Hab : a - b == 0) by lra.
    rewrite Hab. change (Qabs 0) with 0.
    unfold Qdiv. rewrite Qmult_0_r, Qmult_0_l. split; lra.
Qed.

Section WilderBound.

Variable period : positive.
Variable arr : list Q.
Variable bound : Q.
Hypothesis arr_between : Forall (between 0 bound) arr.
Hypothesis bound_nonneg : 0 <= bound.

Lemma Qpos_inv_r : Qpos period * (1 # period) == 1.
Proof.
  rewrite <- Qinv_Qpos. apply Qmult_inv_r.
  unfold Qpos, Qeq. simpl. lia.
Qed.

Lemma Qpos_ge_1 : 1 <= Qpos period.
Proof. unfold Qpos, Qle. simpl. lia. Qed.

Lemma wilder_update_between (prev a : Q) :
  between 0 (bound * Qpos period) prev -> between 0 bound a ->
  between 0 (bound * Qpos period) (prev ⊖ prev ⊘ Qpos period ⊕ a).
Proof.
  unfold between. intros [Hp0 Hp1] [Ha0 Ha1]. exact_arith_all.
  unfold Qdiv. rewrite Qinv_Qpos.
  assert (Hfrac : 0 <= 1 - (1 # period)).
  { unfold Qle, Qminus, Qplus, Qopp. simpl. lia. }
  pose proof (Qmult_le_0_compat _ _ Hp0 Hfrac) as Hlow.
  assert (Hgap : 0 <= bound * Qpos period - prev) by lra.
  pose proof (Qmult_le_0_compat _ _ Hgap Hfrac) as Hhigh.
  assert (Hone : bound * Qpos period * (1 # period) == bound).
  { rewrite <- Qmult_assoc, Qpos_inv_r. ring. }
  split; lra.
Qed.

Lemma wilder_fold_between (idxs : list nat) (result : list Q) :
  Forall (between 0 (bound * Qpos period)) result ->
  Forall (between 0 (bound * Qpos period))
    (fold_left (wilder_step period arr) idxs result).
Proof.
  assert (Hzero : between 0 (bound * Qpos period) 0).
  { pose proof Qpos_ge_1.
    pose proof (Qmult_le_0_compat bound (Qpos period) bound_nonneg ltac:(lra)).
    unfold between. split; lra. }
  revert result.
  induction idxs as [|i idxs IH]; intros result Hres; simpl; [exact Hres|].
  apply IH. unfold wilder_step. apply Forall_insert; [exact Hres|].
  apply wilder_update_between.
  - apply Forall_nth_default; assumption.
  - apply Forall_nth_default; [unfold between; split; lra | exact arr_between].
Qed.

Lemma wilder_smooth_between :
  (Pos.to_nat period <= length arr)%nat ->
  exists r, wilder_smooth arr period = Return r /\
    length r = length arr /\ Forall (between 0 (bound * Qpos period)) r.
Proof.
  intros Hlen. unfold wilder_smooth.
  assert (Hin : (Pos.to_nat period - 1 <? length arr)%nat = true)
    by (apply Nat.ltb_lt; lia).
  rewrite Hin. eexists. split; [reflexivity|]. split.
  - rewrite length_wilder_fold, length_insert, length_replicate. reflexivity.
  - pose proof Qpos_ge_1 as Hp1.
    assert (Hwide : bound <= bound * Qpos period).
    { assert (H : 0 <= bound * (Qpos period - 1))
        by (apply Qmult_le_0_compat; lra).
      lra. }
    apply wilder_fold_between. apply Forall_insert.
    + apply Forall_replicate. unfold between. split; lra.
    + assert (Hne : take (Pos.to_nat period) arr <> []).
      { intros E. apply (f_equal length) in E. rewrite length_take in E.
        simpl in E. lia. }
      destruct (np_mean_between 0 bound _ Hne (Forall_take _ _ _ arr_between))
        as [Hm0 Hm1].
      unfold between. split; lra.
Qed.

End WilderBound.

Lemma calculate_adx_range (high low close : list Q) (period : positive) :
  length high = length close -> length low = length close ->
  exists v, calculate_adx high low close period = Return v /\
    between 0 (100 * Qpos period) v.
Proof.
  intros Hh Hl. unfold calculate_adx.
  assert (Hwide : 0 <= 100 * Qpos period).
  { apply Qmult_le_0_compat; [lra|]. unfold Qpos, Qle. simpl. lia. }
  destruct (length close <? Pos.to_nat period + 1)%nat eqn:Hguard.
  - exists 0.0. split; [reflexivity|]. unfold between. split; lra.
  - apply Nat.ltb_ge in Hguard.
    destruct (true_range_returns high low close Hh Hl) as [tr [Htr [Ltr Ntr]]].
    rewrite Htr. cbn [mbind outcome_bind].
    unfold np_sub, np_add, np_div. zip_binds.
    set (up_move := zip_with nsub (slice_tail high) (slice_init high)).
    set (down_move := zip_with nsub (slice_init low) (slice_tail low)).
    assert (Lup : length up_move = (length close - 1)%nat)
      by (unfold up_move; lengths; lia).
    assert (Ldown : length down_move = (length close - 1)%nat)
      by (unfold down_move; lengths; lia).
    destruct (directional_move_returns up_move down_move) as [pdm [Hp [Lp Np]]];
      [lia|].
    destruct (directional_move_returns down_move up_move) as [mdm [Hm [Lm Nm]]];
      [lia|].
    rewrite Hp, Hm. cbn [mbind outcome_bind].
    destruct (wilder_smooth_returns period tr Ntr) as [atr [Ha [La _]]]; [lia|].
    destruct (wilder_smooth_returns period pdm Np) as [sp [Hsp [Lsp Nsp]]]; [lia|].
    destruct (wilder_smooth_returns period mdm Nm) as [sm [Hsm [Lsm Nsm]]]; [lia|].
    rewrite Ha. cbn [mbind outcome_bind].
    rewrite Hsp. cbn [mbind outcome_bind].
    rewrite (np_map2_zip ndiv (np_scale 100 sp))
      by (unfold np_scale; rewrite length_map, length_guard_positive; lia).
    cbn [mbind outcome_bind].
    rewrite Hsm. cbn [mbind outcome_bind].
    rewrite (np_map2_zip ndiv (np_scale 100 sm))
      by (unfold np_scale; rewrite length_map, length_guard_positive; lia).
    cbn [mbind outcome_bind].
    set (plus_di := zip_with ndiv (np_scale 100 sp) (guard_positive atr)).
    set (minus_di := zip_with ndiv (np_scale 100 sm) (guard_positive atr)).
    assert (Npdi : Forall nonneg plus_di) by (apply scaled_ratio_nonneg, Nsp).
    assert (Nmdi : Forall nonneg minus_di) by (apply scaled_ratio_nonneg, Nsm).
    assert (Lpdi : length plus_di = (length close - 1)%nat).
    { unfold plus_di, np_scale.
      rewrite length_zip_with, length_map, length_guard_positive. lia. }
    assert (Lmdi : length minus_di = (length close - 1)%nat).
    { unfold minus_di, np_scale.
      rewrite length_zip_with, length_map, length_guard_positive. lia. }
    rewrite (np_map2_zip nadd plus_di minus_di) by lia.
    cbn [mbind outcome_bind].
    rewrite (np_map2_zip nsub plus_di minus_di) by lia.
    cbn [mbind outcome_bind].
    rewrite (np_map2_zip ndiv (np_scale 100 (np_abs (zip_with nsub plus_di minus_di))))
      by (unfold np_scale, np_abs;
          rewrite !length_map, length_guard_positive, !length_zip_with; lia).
    cbn [mbind outcome_bind].
    set (dx := zip_with ndiv
                 (np_scale 100 (np_abs (zip_with nsub plus_di minus_di)))
                 (guard_positive (zip_with nadd plus_di minus_di))).
    assert (Bdx : Forall (between 0 100) dx) by (apply dx_between; assumption).
    assert (Ldx : length dx = (length close - 1)%nat).
    { unfold dx, np_scale, np_abs.
      rewrite length_zip_with, !length_map, length_guard_positive, !length_zip_with.
      lia. }
    destruct (wilder_smooth_between period dx 100 Bdx) as [adx [Hadx [Ladx Badx]]];
      [lra | lia |].
    rewrite Hadx. cbn [mbind outcome_bind].
    assert (Hpos : (0 <? length adx)%nat = true) by (apply Nat.ltb_lt; lia).
    rewrite Hpos.
    destruct (index_last_returns adx) as [v [Hlast Hv]]; [lia|].
    exists v. split; [exact Hv|].
    eapply last_between; eassumption.
Qed.

(** X5: on high, low and close arrays of one length, [calculate_adx] returns
    a value between 0 and 100 times the period (the running sum of the
    directional index can reach [period] times its scale), and
    [calculate_atr] returns a non-negative value. *)
Theorem adx_and_atr_ranges (high low close : list Q) (period : positive) :
  length high = length close -> length low = length close ->
  (exists v, calculate_adx high low close period = Return v /\
     0 <= v /\ v <= 100 * Qpos period) /\
  (exists v, calculate_atr high low close period = Return v /\ 0 <= v).
Proof.
  intros Hh Hl. split.
  - apply calculate_adx_range; assumption.
  - apply calculate_atr_nonneg; assumption.
Qed.

Lemma adx_and_atr_ranges_witness :
  (exists v, calculate_adx (rising_high 60) (rising_low 60) (rising_high 60) 14
             = Return v /\ 0 <= v /\ v <= 100 * Qpos 14) /\
  (exists v, calculate_atr (rising_high 60) (rising_low 60) (rising_high 60) 14
             = Return v /\ 0 <= v).
Proof.
  apply (adx_and_atr_ranges (rising_high 60) (rising_low 60) (rising_high 60) 14);
    reflexivity.
Defined.

(** * Further properties of the signal generator *)

Ltac split_ifs :=
  repeat first
    [ progress cbn -[Qltb Qgtb Z.add Z.sub Z.max Z.min]
    | match goal with
      | |- context [if ?b then _ else _] => destruct b
      end ].

(** X6: the confidence of every signal lies between 35 and 90, so the final
    clamp to [0, 100] never changes it; a HOLD never has more than 60, a BUY
    or SELL never less than 50. *)
Theorem generate_signal_confidence_range (st : MarketState) :
  (35 <= confidence (generate_signal st) <= 90)%Z /\
  (action (generate_signal st) = HOLD -> (confidence (generate_signal st) <= 60)%Z) /\
  (action (generate_signal st) <> HOLD -> (50 <= confidence (generate_signal st))%Z).
Proof.
  unfold generate_signal, strategy_branch.
  destruct (strategy st), (regime st); cbn [is_mean_reversion is_neutral];
    split_ifs; (split; [lia | split; intros H; (lia || congruence)]).
Qed.

Lemma generate_signal_confidence_range_witness :
  (confidence (generate_signal (oversold_state NEUTRAL)) <= 90)%Z /\
  (50 <= confidence (generate_signal (oversold_state RANGING)))%Z.
Proof.
  split.
  - apply (proj1 (generate_signal_confidence_range (oversold_state NEUTRAL))).
  - apply (proj2 (proj2 (generate_signal_confidence_range (oversold_state RANGING)))).
    discriminate.
Defined.

(** X7: the reasoning of a signal is empty (the source then prints its
    sentinel sentence) exactly when the action is HOLD, the volume ratio is
    at most 1.5 and the regime is not NEUTRAL. *)
Theorem generate_signal_reasoning_empty (st : MarketState) :
  reasoning (generate_signal st) = [] <->
  action (generate_signal st) = HOLD /\ volume_ratio st <= 1.5 /\ regime st <> NEUTRAL.
Proof.
  unfold generate_signal, strategy_branch.
  destruct (Qgtb (volume_ratio st) 1.5) eqn:Hv;
    [apply Qgtb_gt in Hv | apply Qgtb_le in Hv];
    destruct (strategy st), (regime st) eqn:Hr;
    cbn [is_mean_reversion is_neutral];
    split_ifs;
    (split;
     [ intros H; try discriminate H; repeat split; (assumption || discriminate)
     | intros [Ha [Hvol Hreg]];
       first [ reflexivity | discriminate Ha | congruence | exfalso; lra ] ]).
Qed.

(** A ranging state with both RSI readings in the middle of the scale. *)
Definition quiet_state : MarketState := {|
  price := 100; sma_50 := 100; ema_20 := 100; ema_200 := 100;
  rsi_7 := 48; rsi_14 := 52; adx := 12;
  macd := 0; macd_signal := 0; macd_histogram := 0;
  atr_14 := 3; atr_percent := 3;
  volume := 1000; volume_sma := 1000; volume_ratio := 1;
  regime := RANGING; strategy := MEAN_REVERSION;
  position_size_multiplier := 1.25
|}.

Lemma generate_signal_reasoning_empty_witness :
  reasoning (generate_signal quiet_state) = [].
Proof.
  apply (proj2 (generate_signal_reasoning_empty quiet_state)).
  split; [reflexivity|]. split; [discriminate | discriminate].
Defined.

(** * Further properties of the analyzer *)

Ltac split_ifs_in H :=
  repeat first
    [ progress cbn -[Qltb Qgtb py_round Qmax Qmin nmul ndiv] in H
    | match type of H with
      | context [if ?b then _ else _] => destruct b
      end ].

(** X8: the position_size_multiplier of a returned state is never below
    0.28: the smallest product of a base multiplier and the two adjustment
    factors is 0.5 * 0.7 * 0.8, so the lower clamp at 0.25 never acts. *)
Theorem position_size_multiplier_at_least_028
  (high low close volume : list Q) (st : MarketState) :
  analyze_market_v2 high low close volume = Return st ->
  0.28 <= position_size_multiplier st /\ position_size_multiplier st <= 1.5.
Proof.
  intros H. unfold analyze_market_v2 in H.
  repeat (apply bind_Return_inv in H as (? & ? & H)).
  match type of H with
  | (match ?t with pair _ _ => _ end) = _ =>
      destruct t as [[macd macd_signal] macd_histogram]
  end.
  repeat (apply bind_Return_inv in H as (? & ? & H)).
  unfold detect_regime_default, detect_regime in H.
  split_ifs_in H; injection H as <-; cbn [position_size_multiplier];
    split; apply Qle_bool_iff; vm_compute; reflexivity.
Qed.

Lemma position_size_multiplier_at_least_028_witness :
  exists st,
    analyze_market_v2 (rising_high 16) (rising_low 16) (rising_high 16) [] = Return st /\
    0.28 <= position_size_multiplier st /\ position_size_multiplier st <= 1.5.
Proof.
  eexists. split; [vm_compute; reflexivity|].
  apply (position_size_multiplier_at_least_028
           (rising_high 16) (rising_low 16) (rising_high 16) []).
  vm_compute. reflexivity.
Defined.

Lemma mean_reversion_mid_rsi14_holds (st : MarketState) :
  strategy st = MEAN_REVERSION -> 40 <= rsi_14 st -> rsi_14 st <= 60 ->
  action (generate_signal st) = HOLD.
Proof.
  intros Hs Hlo Hhi.
  assert (E1 : Qltb (rsi_14 st) 40 = false) by (apply Qltb_ge; exact Hlo).
  assert (E2 : Qgtb (rsi_14 st) 60 = false) by (apply Qgtb_le; exact Hhi).
  unfold generate_signal, strategy_branch.
  rewrite Hs, E1, E2, !andb_false_r. cbn [is_mean_reversion].
  split_ifs; reflexivity.
Qed.

Lemma zero_atr_percent (price : Q) :
  (if Qgtb price 0 then (0.0 ⊘ price) ⊗ 100 else 0) == 0.
Proof.
  destruct (Qgtb price 0); [|reflexivity].
  exact_arith_all. assert (Z0 : 0.0 == 0) by reflexivity.
  rewrite Z0. unfold Qdiv. rewrite !Qmult_0_l. reflexivity.
Qed.

(** X9: a non-empty window of fewer than 15 closes, with any high, low and
    volume arrays, is analyzed without an exception and always reads as a
    ranging market to hold: RSI-14 is 50, ADX, ATR and MACD are 0, the regime
    is RANGING, the strategy MEAN_REVERSION and the action HOLD; yet the
    position_size_multiplier is at least 1.2. *)
Theorem short_window_is_ranging_hold (high low close volume : list Q) :
  (0 < length close)%nat -> (length close < 15)%nat ->
  exists st, analyze_market_v2 high low close volume = Return st /\
    rsi_14 st == 50 /\ adx st == 0 /\ atr_14 st == 0 /\ macd st == 0 /\
    regime st = RANGING /\ strategy st = MEAN_REVERSION /\
    action (generate_signal st) = HOLD /\
    1.2 <= position_size_multiplier st.
Proof.
  intros Hne Hshort.
  assert (Hg14 : (length close <? Pos.to_nat 14 + 1)%nat = true)
    by (apply Nat.ltb_lt; simpl; lia).
  assert (Hg35 : (length close <? Pos.to_nat 26 + Pos.to_nat 9)%nat = true)
    by (apply Nat.ltb_lt; simpl; lia).
  destruct (index_last_returns close Hne) as [price [_ Hprice]].
  destruct (calculate_sma_returns close 50) as [sma_50 Hsma].
  destruct (calculate_ema_returns close 20) as [ema_20 He20].
  destruct (calculate_ema_returns close 200) as [ema_200 He200].
  destruct (calculate_rsi_returns close 7) as [rsi_7 Hr7].
  destruct (guarded_volume_returns volume) as [vol Hvol].
  destruct (calculate_sma_returns volume 20) as [vol_sma Hvsma].
  unfold analyze_market_v2, calculate_macd_default.
  rewrite Hprice, Hsma, He20, He200, Hr7.
  unfold calculate_rsi at 1, calculate_adx, calculate_macd, calculate_atr.
  rewrite Hg14, Hg35, Hvol, Hvsma.
  cbn [mbind outcome_bind].
  replace (detect_regime_default 0.0 price sma_50)
    with (RANGING, MEAN_REVERSION, 1.25) by reflexivity.
  pose proof (zero_atr_percent price) as Hatr.
  assert (Ha5 : Qgtb (if Qgtb price 0 then (0.0 ⊘ price) ⊗ 100 else 0) 5 = false)
    by (apply Qgtb_le; lra).
  assert (Ha2 : Qltb (if Qgtb price 0 then (0.0 ⊘ price) ⊗ 100 else 0) 2 = true)
    by (apply Qltb_lt; lra).
  cbv beta iota zeta. rewrite Ha5, Ha2.
  eexists. split; [reflexivity|].
  cbn [rsi_14 adx atr_14 macd regime strategy position_size_multiplier].
  do 6 (split; [vm_compute; reflexivity|]).
  split.
  - apply mean_reversion_mid_rsi14_holds; cbn [strategy rsi_14];
      [reflexivity | |]; apply Qle_bool_iff; vm_compute; reflexivity.
  - split_ifs; apply Qle_bool_iff; vm_compute; reflexivity.
Qed.

Lemma short_window_is_ranging_hold_witness :
  exists st, analyze_market_v2 [5; 9] [] [4; 8; 6] [1; 2] = Return st /\
    rsi_14 st == 50 /\ adx st == 0 /\ atr_14 st == 0 /\ macd st == 0 /\
    regime st = RANGING /\ strategy st = MEAN_REVERSION /\
    action (generate_signal st) = HOLD /\
    1.2 <= position_size_multiplier st.
Proof.
  apply (short_window_is_ranging_hold [5; 9] [] [4; 8; 6] [1; 2]); simpl; lia.
Defined.

Lemma calculate_ema_v1_returns (prices : list Q) (period : positive) :
  returns (V1.calculate_ema prices period).
Proof.
  unfold V1.calculate_ema, returns.
  destruct (length prices <? Pos.to_nat period)%nat eqn:Hshort.
  - rewrite guarded_last. eauto.
  - apply Nat.ltb_ge in Hshort.
    destruct (index_first_returns prices) as [x Hx]; [lia|].
    rewrite Hx. cbn [mbind outcome_bind]. eauto.
Qed.

(** X10: the two detectors agree.  Whenever [analyze_market_v2] returns a
    state for a window, [analyze_market] of regime_detector.py returns on the
    same arrays, recommends the same strategy, and says BEAR_TREND exactly
    when the state does; the strategy is RSI_MOMENTUM exactly in
    BEAR_TREND. *)
Theorem detectors_agree_on_strategy
  (high low close volume : list Q) (st : MarketState) :
  analyze_market_v2 high low close volume = Return st ->
  exists r, V1.analyze_market high low close = Return (r, strategy st) /\
    (r = V1.BEAR_TREND <-> regime st = BEAR_TREND) /\
    (strategy st = RSI_MOMENTUM <-> regime st = BEAR_TREND).
Proof.
  intros H. unfold analyze_market_v2 in H.
  apply bind_Return_inv in H as (price & Hprice & H).
  apply bind_Return_inv in H as (sma_50 & Hsma & H).
  apply bind_Return_inv in H as (ema_20 & He20 & H).
  apply bind_Return_inv in H as (ema_200 & He200 & H).
  apply bind_Return_inv in H as (rsi_7 & Hr7 & H).
  apply bind_Return_inv in H as (rsi_14 & Hr14 & H).
  apply bind_Return_inv in H as (adx & Hadx & H).
  apply bind_Return_inv in H as ([[macd macd_signal] macd_histogram] & Hmacd & H).
  repeat (apply bind_Return_inv in H as (? & ? & H)).
  destruct (calculate_ema_v1_returns close 200) as [ema_v1 Hev1].
  unfold V1.analyze_market, V1.detect_regime, V1.calculate_adx.
  change (V1.calculate_sma close 50) with (V2.calculate_sma close 50).
  rewrite Hprice, Hadx, Hsma, Hev1. cbn [mbind outcome_bind].
  unfold detect_regime_default, detect_regime, adx_trend_default in H.
  destruct (Qgtb adx 25.0), (Qltb price sma_50);
    split_ifs_in H; injection H as <-; cbn [strategy regime andb mbind outcome_bind];
    eexists; (split; [reflexivity|]); split; split; congruence.
Qed.

Lemma detectors_agree_on_strategy_witness :
  exists st,
    analyze_market_v2 (rising_high 16) (rising_low 16) (rising_high 16) [] = Return st /\
    exists r,
      V1.analyze_market (rising_high 16) (rising_low 16) (rising_high 16)
        = Return (r, strategy st) /\
      (r = V1.BEAR_TREND <-> regime st = BEAR_TREND) /\
      (strategy st = RSI_MOMENTUM <-> regime st = BEAR_TREND).
Proof.
  eexists. split; [vm_compute; reflexivity|].
  apply (detectors_agree_on_strategy
           (rising_high 16) (rising_low 16) (rising_high 16) []).
  vm_compute. reflexivity.
Defined.

(** X11: an empty window is the one fatal input.  With an empty close array
    both analyzers raise IndexError, whatever the other arrays are; on a
    non-empty window whose high, low and close arrays have one length
    [analyze_market] of regime_detector.py returns a regime and its
    strategy. *)
Theorem analyzers_on_empty_and_nonempty_windows (high low close : list Q) :
  (forall volume, analyze_market_v2 high low [] volume = Raise IndexError) /\
  V1.analyze_market high low [] = Raise IndexError /\
  (length high = length close -> length low = length close ->
   (0 < length close)%nat ->
   exists r, V1.analyze_market high low close = Return (r, V1.get_strategy r)).
Proof.
  refine (conj _ (conj _ _)).
  - intros volume. reflexivity.
  - reflexivity.
  - intros Hh Hl Hne.
    destruct (index_last_returns close Hne) as [price [_ Hprice]].
    destruct (calculate_adx_nonneg high low close 14 Hh Hl) as [adx [Hadx _]].
    destruct (calculate_sma_returns close 50) as [sma Hsma].
    destruct (calculate_ema_v1_returns close 200) as [ema Hema].
    unfold V1.analyze_market, V1.detect_regime, V1.calculate_adx.
    change (V1.calculate_sma close 50) with (V2.calculate_sma close 50).
    rewrite Hprice, Hadx, Hsma, Hema. cbn [mbind outcome_bind].
    destruct (Qgtb adx 25.0 && Qltb price sma); cbn [mbind outcome_bind]; eauto.
Qed.

Lemma analyzers_on_empty_and_nonempty_windows_witness :
  exists r, V1.analyze_market flat60 flat60 flat60 = Return (r, V1.get_strategy r).
Proof.
  apply (proj2 (proj2 (analyzers_on_empty_and_nonempty_windows flat60 flat60 flat60)));
    vm_compute; (reflexivity || lia).
Defined.

(** * live_signal_test.py: the estimated volume *)

Lemma py_round_2_of_one (x : Q) : x == 1 -> py_round x 2 == 1.
Proof.
  intros Hx. unfold py_round.
  change (inject_Z (10 ^ Z.of_nat 2)) with 100.
  assert (Hr : round_half_even (x ⊗ 100) = 100%Z).
  { assert (Hy : x ⊗ 100 == 100) by (rewrite nmul_correct, Hx; reflexivity).
    assert (Hf : Qfloor (x ⊗ 100) = 100%Z)
      by (rewrite (Qfloor_comp _ _ Hy); reflexivity).
    unfold round_half_even. rewrite Hf.
    assert (Hc : Qcompare (x ⊗ 100 - inject_Z 100) (1 # 2) = Lt)
      by (apply Qlt_alt; rewrite Hy; reflexivity).
    rewrite Hc. reflexivity. }
  rewrite Hr, ndiv_correct. reflexivity.
Qed.

Lemma last_replicate {A : Type} (n : nat) (x : A) :
  (0 < n)%nat -> last (replicate n x) = Some x.
Proof.
  destruct n as [|n]; [lia | intros _].
  rewrite replicate_S_end. apply last_snoc.
Qed.

Lemma constant_volume_ratio (n : nat) (c vol vol_sma : Q) :
  (0 < n)%nat ->
  (if (0 <? length (replicate n c))%nat then index_last (replicate n c) else Return 0)
    = Return vol ->
  calculate_sma (replicate n c) 20 = Return vol_sma ->
  (if Qgtb vol_sma 0 then vol ⊘ vol_sma else 1.0) == 1.
Proof.
  intros Hn Hvol Hsma.
  assert (Hlen : (0 <? length (replicate n c))%nat = true)
    by (apply Nat.ltb_lt; rewrite length_replicate; exact Hn).
  rewrite Hlen in Hvol. unfold index_last in Hvol.
  rewrite (last_replicate n c Hn) in Hvol. injection Hvol as <-.
  assert (Hc : Forall (between c c) (replicate n c))
    by (apply Forall_replicate; unfold between; split; lra).
  destruct (sma_between c c (replicate n c) 20) as [v [Hv [Hv1 Hv2]]];
    [destruct n; [lia | discriminate] | exact Hc |].
  rewrite Hsma in Hv. injection Hv as <-.
  destruct (Qgtb vol_sma 0) eqn:E; [|reflexivity].
  apply Qgtb_gt in E. rewrite ndiv_correct.
  assert (Heq : vol_sma == c) by lra.
  rewrite Heq. apply Qmult_inv_r. lra.
Qed.

Lemma ordinary_volume_signal (st : MarketState) :
  volume_ratio st <= 1.5 ->
  (confidence (generate_signal st) <= 80)%Z /\
  (forall ratio, ~ In (HighVolume ratio) (reasoning (generate_signal st))).
Proof.
  intros Hv. apply Qgtb_le in Hv.
  unfold generate_signal, strategy_branch. rewrite Hv.
  destruct (strategy st), (regime st); cbn [is_mean_reversion is_neutral];
    split_ifs;
    (split; [lia | intros ratio Hin; cbn in Hin;
                   repeat (destruct Hin as [Hin | Hin]; [discriminate Hin|]);
                   exact Hin]).
Qed.

(** X12: in [analyze_coin] the volume array is one estimated value repeated,
    so the volume ratio of the analyzed state is always 1: the signal never
    gets the high-volume bonus (its confidence is at most 80 and it carries
    no high-volume reason). *)
Theorem analyze_coin_volume_is_neutral
  (high low close : list Q) (volume_24h : Q) (st : MarketState) (sig : Signal) :
  Live.analyze_coin high low close volume_24h = Return (st, sig) ->
  volume_ratio st == 1 /\
  sig = generate_signal st /\
  (confidence sig <= 80)%Z /\
  (forall ratio, ~ In (HighVolume ratio) (reasoning sig)).
Proof.
  intros H. unfold Live.analyze_coin in H.
  apply bind_Return_inv in H as (st' & Hst & H). injection H as <- <-.
  assert (Hratio : volume_ratio st' == 1).
  { unfold analyze_market_v2, Live.estimated_volume in Hst.
    apply bind_Return_inv in Hst as (price & Hprice & H).
    do 6 (apply bind_Return_inv in H as (? & ? & H)).
    apply bind_Return_inv in H as ([[macd macd_signal] macd_histogram] & Hmacd & H).
    apply bind_Return_inv in H as (atr & Hatr & H).
    apply bind_Return_inv in H as (vol & Hvol & H).
    apply bind_Return_inv in H as (vol_sma & Hvsma & H).
    assert (Hn : (0 < length close)%nat).
    { destruct close; [discriminate Hprice | simpl; lia]. }
    pose proof (constant_volume_ratio _ _ _ _ Hn Hvol Hvsma) as Hone.
    match type of H with
    | (match ?t with pair _ _ => _ end) = _ =>
        destruct t as [[regime strategy] pos_mult]
    end.
    injection H as <-. cbn [volume_ratio].
    apply py_round_2_of_one, Hone. }
  split; [exact Hratio|]. split; [reflexivity|].
  apply ordinary_volume_signal. rewrite Hratio. apply Qle_bool_iff. reflexivity.
Qed.

Lemma analyze_coin_volume_is_neutral_witness :
  exists st sig,
    Live.analyze_coin (rising_high 16) (rising_low 16) (rising_high 16) 2400000
      = Return (st, sig) /\
    volume_ratio st == 1 /\
    sig = generate_signal st /\
    (confidence sig <= 80)%Z /\
    (forall ratio, ~ In (HighVolume ratio) (reasoning sig)).
Proof.
  eexists _, _. split; [vm_compute; reflexivity|].
  apply (analyze_coin_volume_is_neutral
           (rising_high 16) (rising_low 16) (rising_high 16) 2400000).
  vm_compute. reflexivity.
Defined.

(** * Further properties of the paper-trading bot *)

Lemma Qeq_bool_false (x y : Q) : ~ x == y -> Qeq_bool x y = false.
Proof.
  intros H. destruct (Qeq_bool x y) eqn:E; [|reflexivity].
  apply Qeq_bool_iff in E. contradiction.
Qed.

Lemma no_position_decides (m : gmap string Bot.Position) (pair : string) :
  m !! pair = None -> bool_decide (is_Some (m !! pair)) = false.
Proof.
  intros H. apply bool_decide_eq_false. rewrite H. intros [x Hx]. discriminate Hx.
Qed.

Lemma has_position_decides (m : gmap string Bot.Position) (pair : string)
  (pos : Bot.Position) :
  m !! pair = Some pos -> bool_decide (is_Some (m !! pair)) = true.
Proof.
  intros H. apply bool_decide_eq_true. rewrite H. eauto.
Qed.

(** X13: a signal that passes the gate opens exactly one position.  For a
    signal that is not NEUTRAL, with confidence at least 65 and a non-zero
    price, on a pair without a position, [execute_signal] records a position
    at the signal price whose value (quantity times price) is the balance
    times position_size_pct, long for LONG and STRONG_LONG and short
    otherwise; every other pair, the balance and the trades are untouched,
    and the state is saved last. *)
Theorem execute_signal_opens_position
  (bot : Bot.TradingBot) (now pair : string) (sig : Bot.CompositeSignal) :
  Bot.signal sig <> Bot.NEUTRAL -> 65 <= Bot.confidence sig ->
  ~ Bot.price sig == 0 ->
  Bot.positions (Bot.state bot) !! pair = None ->
  exists st' trace pos,
    Bot.execute_signal bot now pair sig = Return (st', trace) /\
    Bot.positions st' !! pair = Some pos /\
    Bot.entry_price pos = Bot.price sig /\
    Bot.qty pos * Bot.price sig
      == Bot.balance (Bot.state bot) * Bot.position_size_pct bot /\
    (Bot.side pos = Bot.long <->
     Bot.signal sig = Bot.LONG \/ Bot.signal sig = Bot.STRONG_LONG) /\
    (forall other, other <> pair ->
       Bot.positions st' !! other = Bot.positions (Bot.state bot) !! other) /\
    Bot.balance st' = Bot.balance (Bot.state bot) /\
    Bot.trades st' = Bot.trades (Bot.state bot) /\
    last trace = Some (Bot.SaveState st').
Proof.
  intros Hsig Hconf Hprice Hnone. unfold Bot.execute_signal.
  assert (Hn : Bot.is_neutral (Bot.signal sig) = false)
    by (destruct (Bot.signal sig); try reflexivity; congruence).
  assert (Hc : Qltb (Bot.confidence sig) 65 = false) by (apply Qltb_ge, Hconf).
  rewrite Hn, Hc, (no_position_decides _ _ Hnone), (Qeq_bool_false _ _ Hprice).
  cbn [mbind outcome_bind].
  eexists _, _, _. split; [reflexivity|].
  cbn [Bot.positions Bot.balance Bot.trades].
  split; [apply lookup_insert_eq|].
  cbn [Bot.entry_price Bot.qty Bot.side].
  split; [reflexivity|]. split.
  { exact_arith_all. field. exact Hprice. }
  split.
  { destruct (Bot.signal sig); cbn [Bot.is_long]; split;
      (reflexivity || discriminate || tauto || (intros [H|H]; discriminate H)
       || (intros _; tauto)). }
  split; [intros other Hne; apply lookup_insert_ne; congruence|].
  split; [reflexivity|]. split; [reflexivity|].
  destruct (Bot.alerter bot); reflexivity.
Qed.

Definition strong_long : Bot.CompositeSignal :=
  {| Bot.signal := Bot.STRONG_LONG; Bot.confidence := 80; Bot.price := 50000 |}.

Lemma execute_signal_opens_position_witness :
  exists st' trace pos,
    Bot.execute_signal idle_bot "2026-02-03T01:00:00" "BTC" strong_long
      = Return (st', trace) /\
    Bot.positions st' !! "BTC" = Some pos /\
    Bot.entry_price pos = Bot.price strong_long /\
    Bot.qty pos * Bot.price strong_long
      == Bot.balance (Bot.state idle_bot) * Bot.position_size_pct idle_bot /\
    (Bot.side pos = Bot.long <->
     Bot.signal strong_long = Bot.LONG \/ Bot.signal strong_long = Bot.STRONG_LONG) /\
    (forall other, other <> "BTC" ->
       Bot.positions st' !! other = Bot.positions (Bot.state idle_bot) !! other) /\
    Bot.balance st' = Bot.balance (Bot.state idle_bot) /\
    Bot.trades st' = Bot.trades (Bot.state idle_bot) /\
    last trace = Some (Bot.SaveState st').
Proof.
  apply (execute_signal_opens_position idle_bot "2026-02-03T01:00:00" "BTC" strong_long).
  - discriminate.
  - discriminate.
  - intros H. discriminate H.
  - reflexivity.
Defined.

(** X14: whatever the signal, [execute_signal] never touches the balance,
    the trades or the signal counter, never changes or removes a position
    that is open (a second signal on the same pair does not add to it), and
    never touches another pair. *)
Theorem execute_signal_preserves_open_positions
  (bot : Bot.TradingBot) (now pair : string) (sig : Bot.CompositeSignal)
  (st' : Bot.BotState) (trace : list Bot.Event) :
  Bot.execute_signal bot now pair sig = Return (st', trace) ->
  Bot.balance st' = Bot.balance (Bot.state bot) /\
  Bot.trades st' = Bot.trades (Bot.state bot) /\
  Bot.signals_generated st' = Bot.signals_generated (Bot.state bot) /\
  (forall p pos, Bot.positions (Bot.state bot) !! p = Some pos ->
     Bot.positions st' !! p = Some pos) /\
  (forall p, p <> pair ->
     Bot.positions st' !! p = Bot.positions (Bot.state bot) !! p).
Proof.
  unfold Bot.execute_signal. intros H.
  destruct (Bot.is_neutral (Bot.signal sig));
    [injection H as <- <-; repeat split; auto|].
  destruct (Qltb (Bot.confidence sig) 65);
    [injection H as <- <-; repeat split; auto|].
  destruct (bool_decide (is_Some (Bot.positions (Bot.state bot) !! pair))) eqn:Hpos;
    [injection H as <- <-; repeat split; auto|].
  apply bool_decide_eq_false in Hpos.
  destruct (Qeq_bool (Bot.price sig) 0); [discriminate H|].
  cbn [mbind outcome_bind] in H. injection H as <- <-.
  cbn [Bot.balance Bot.trades Bot.signals_generated Bot.positions].
  repeat split.
  - intros p pos Hp. rewrite lookup_insert_ne; [exact Hp|].
    intros ->. apply Hpos. eauto.
  - intros p Hne. apply lookup_insert_ne. congruence.
Qed.

Lemma execute_signal_preserves_open_positions_witness :
  exists st' trace,
    Bot.execute_signal idle_bot "2026-02-03T01:00:00" "BTC" strong_long
      = Return (st', trace) /\
    Bot.balance st' = Bot.balance (Bot.state idle_bot) /\
    Bot.trades st' = Bot.trades (Bot.state idle_bot) /\
    Bot.signals_generated st' = Bot.signals_generated (Bot.state idle_bot) /\
    (forall p pos, Bot.positions (Bot.state idle_bot) !! p = Some pos ->
       Bot.positions st' !! p = Some pos) /\
    (forall p, p <> "BTC" ->
       Bot.positions st' !! p = Bot.positions (Bot.state idle_bot) !! p).
Proof.
  eexists _, _. split; [vm_compute; reflexivity|].
  eapply (execute_signal_preserves_open_positions
            idle_bot "2026-02-03T01:00:00" "BTC" strong_long).
  vm_compute. reflexivity.
Defined.

Lemma position_pnl_value (pos : Bot.Position) (exit_price : Q) :
  BotExit.position_pnl pos exit_price ==
  match Bot.side pos with
  | Bot.long => (exit_price - Bot.entry_price pos) * Bot.qty pos
  | Bot.short => - ((exit_price - Bot.entry_price pos) * Bot.qty pos)
  end.
Proof.
  unfold BotExit.position_pnl. destruct (Bot.side pos); exact_arith_all; reflexivity.
Qed.

(** X15: [_close_position] on a pair without a position fails with the
    KeyError of the pop; on an open position it removes that position and no
    other, adds to the balance the price difference times the quantity
    (negated for a short), appends one trade carrying that profit, and saves
    the state last. *)
Theorem close_position_books_pnl
  (bot : Bot.TradingBot) (now pair : string) (exit_price : Q)
  (reason : BotExit.ExitReason) :
  (Bot.positions (Bot.state bot) !! pair = None ->
     BotExit.close_position bot now pair exit_price reason = None) /\
  (forall pos, Bot.positions (Bot.state bot) !! pair = Some pos ->
     exists st' events trade,
       BotExit.close_position bot now pair exit_price reason = Some (st', events) /\
       Bot.positions st' !! pair = None /\
       (forall other, other <> pair ->
          Bot.positions st' !! other = Bot.positions (Bot.state bot) !! other) /\
       Bot.trades st' = Bot.trades (Bot.state bot) ++ [trade] /\
       Bot.closed trade = pos /\
       Bot.balance st' == Bot.balance (Bot.state bot) + Bot.pnl trade /\
       Bot.pnl trade ==
         match Bot.side pos with
         | Bot.long => (exit_price - Bot.entry_price pos) * Bot.qty pos
         | Bot.short => - ((exit_price - Bot.entry_price pos) * Bot.qty pos)
         end /\
       last events = Some (BotExit.SaveExitState st')).
Proof.
  unfold BotExit.close_position. split.
  - intros ->. reflexivity.
  - intros pos ->. eexists _, _, _. split; [reflexivity|].
    cbn [Bot.positions Bot.trades Bot.balance Bot.closed Bot.pnl].
    split; [apply lookup_delete_eq|].
    split; [intros other Hne; apply lookup_delete_ne; congruence|].
    split; [reflexivity|]. split; [reflexivity|].
    split; [apply nadd_correct|].
    split; [apply position_pnl_value|].
    destruct (Bot.alerter bot); reflexivity.
Qed.

Definition btc_long : Bot.Position := {|
  Bot.entry_price := 50000; Bot.qty := 1 # 100; Bot.side := Bot.long;
  Bot.entry_time := "2026-02-03T01:00:00"; Bot.signal_confidence := 80
|}.

Definition holding_bot : Bot.TradingBot :=
  BotExit.with_state idle_bot {|
    Bot.balance := 10000;
    Bot.positions := {[ "BTC" := btc_long ]};
    Bot.trades := [];
    Bot.signals_generated := 1;
    Bot.start_time := "2026-02-03T00:00:00"
  |}.

Lemma close_position_books_pnl_witness :
  BotExit.close_position holding_bot "2026-02-03T02:00:00" "ETH" 3000
    BotExit.stop_loss = None /\
  exists st' events trade,
    BotExit.close_position holding_bot "2026-02-03T02:00:00" "BTC" 52500
      BotExit.take_profit = Some (st', events) /\
    Bot.positions st' !! "BTC" = None /\
    (forall other, other <> "BTC" ->
       Bot.positions st' !! other = Bot.positions (Bot.state holding_bot) !! other) /\
    Bot.trades st' = Bot.trades (Bot.state holding_bot) ++ [trade] /\
    Bot.closed trade = btc_long /\
    Bot.balance st' == Bot.balance (Bot.state holding_bot) + Bot.pnl trade /\
    Bot.pnl trade ==
      match Bot.side btc_long with
      | Bot.long => (52500 - Bot.entry_price btc_long) * Bot.qty btc_long
      | Bot.short => - ((52500 - Bot.entry_price btc_long) * Bot.qty btc_long)
      end /\
    last events = Some (BotExit.SaveExitState st').
Proof.
  split.
  - apply (proj1 (close_position_books_pnl holding_bot "2026-02-03T02:00:00" "ETH"
                    3000 BotExit.stop_loss)).
    vm_compute. reflexivity.
  - apply (proj2 (close_position_books_pnl holding_bot "2026-02-03T02:00:00" "BTC"
                    52500 BotExit.take_profit)).
    vm_compute. reflexivity.
Defined.

(** X16: opening and closing compose.  A position opened by
    [execute_signal] on a pair that had none and closed by
    [_close_position] at [exit_price] leaves the positions exactly as they
    were, adds one trade, and moves the balance by its fraction
    position_size_pct times the relative price move, up for a long and down
    for a short; closed at the entry price it restores the balance. *)
Theorem open_then_close_round_trip
  (bot : Bot.TradingBot) (now later pair : string) (sig : Bot.CompositeSignal)
  (exit_price : Q) (reason : BotExit.ExitReason) :
  Bot.signal sig <> Bot.NEUTRAL -> 65 <= Bot.confidence sig ->
  ~ Bot.price sig == 0 ->
  Bot.positions (Bot.state bot) !! pair = None ->
  exists st1 trace st2 events,
    Bot.execute_signal bot now pair sig = Return (st1, trace) /\
    BotExit.close_position (BotExit.with_state bot st1) later pair exit_price reason
      = Some (st2, events) /\
    Bot.positions st2 = Bot.positions (Bot.state bot) /\
    length (Bot.trades st2) = S (length (Bot.trades (Bot.state bot))) /\
    Bot.balance st2 ==
      Bot.balance (Bot.state bot)
      + (if Bot.is_long (Bot.signal sig) then 1 else - (1))
        * (Bot.balance (Bot.state bot) * Bot.position_size_pct bot)
        * ((exit_price - Bot.price sig) / Bot.price sig) /\
    (exit_price == Bot.price sig -> Bot.balance st2 == Bot.balance (Bot.state bot)).
Proof.
  intros Hsig Hconf Hprice Hnone. unfold Bot.execute_signal.
  assert (Hn : Bot.is_neutral (Bot.signal sig) = false)
    by (destruct (Bot.signal sig); try reflexivity; congruence).
  assert (Hc : Qltb (Bot.confidence sig) 65 = false) by (apply Qltb_ge, Hconf).
  rewrite Hn, Hc, (no_position_decides _ _ Hnone), (Qeq_bool_false _ _ Hprice).
  cbn [mbind outcome_bind].
  eexists _, _, _, _. split; [reflexivity|].
  unfold BotExit.close_position, BotExit.with_state.
  cbn [Bot.state Bot.positions]. rewrite lookup_insert_eq.
  split; [reflexivity|].
  cbn [Bot.positions Bot.trades Bot.balance].
  split; [apply delete_insert_id, Hnone|].
  split; [rewrite length_app; simpl; lia|].
  assert (Hbal :
    Bot.balance (Bot.state bot)
    ⊕ BotExit.position_pnl
        {| Bot.entry_price := Bot.price sig;
           Bot.qty := (Bot.balance (Bot.state bot) ⊗ Bot.position_size_pct bot)
                      ⊘ Bot.price sig;
           Bot.side := if Bot.is_long (Bot.signal sig) then Bot.long else Bot.short;
           Bot.entry_time := now;
           Bot.signal_confidence := Bot.confidence sig |} exit_price
    == Bot.balance (Bot.state bot)
       + (if Bot.is_long (Bot.signal sig) then 1 else - (1))
         * (Bot.balance (Bot.state bot) * Bot.position_size_pct bot)
         * ((exit_price - Bot.price sig) / Bot.price sig)).
  { rewrite nadd_correct, position_pnl_value.
    cbn [Bot.side Bot.entry_price Bot.qty].
    destruct (Bot.is_long (Bot.signal sig)); exact_arith_all; field; exact Hprice. }
  split; [exact Hbal|].
  intros Hsame. rewrite Hbal, Hsame. field. exact Hprice.
Qed.

Lemma open_then_close_round_trip_witness :
  exists st1 trace st2 events,
    Bot.execute_signal idle_bot "2026-02-03T01:00:00" "BTC" strong_long
      = Return (st1, trace) /\
    BotExit.close_position (BotExit.with_state idle_bot st1) "2026-02-03T02:00:00"
      "BTC" 52500 BotExit.take_profit = Some (st2, events) /\
    Bot.positions st2 = Bot.positions (Bot.state idle_bot) /\
    length (Bot.trades st2) = S (length (Bot.trades (Bot.state idle_bot))) /\
    Bot.balance st2 ==
      Bot.balance (Bot.state idle_bot)
      + (if Bot.is_long (Bot.signal strong_long) then 1 else - (1))
        * (Bot.balance (Bot.state idle_bot) * Bot.position_size_pct idle_bot)
        * ((52500 - Bot.price strong_long) / Bot.price strong_long) /\
    (52500 == Bot.price strong_long ->
     Bot.balance st2 == Bot.balance (Bot.state idle_bot)).
Proof.
  apply (open_then_close_round_trip idle_bot "2026-02-03T01:00:00"
           "2026-02-03T02:00:00" "BTC" strong_long 52500 BotExit.take_profit).
  - discriminate.
  - discriminate.
  - intros H. discriminate H.
  - reflexivity.
Defined.

Lemma ratio_sign (num den : Q) :
  0 < den -> (num / den <= 0 <-> num <= 0) /\ (0 <= num / den <-> 0 <= num).
Proof.
  intros Hden.
  assert (E : num == num / den * den) by (field; lra).
  assert (Hinv : 0 < / den) by (apply Qinv_lt_0_compat, Hden).
  unfold Qdiv in *. split; split; intros H.
  - assert (0 <= - (num * / den) * den) by (apply Qmult_le_0_compat; lra). lra.
  - assert (0 <= - num * / den) by (apply Qmult_le_0_compat; lra). lra.
  - assert (0 <= num * / den * den) by (apply Qmult_le_0_compat; lra). lra.
  - apply Qmult_le_0_compat; lra.
Qed.

Lemma pnl_follows_pnl_pct (pos : Bot.Position) (current_price : Q) :
  0 < Bot.entry_price pos -> 0 <= Bot.qty pos ->
  (BotExit.pnl_pct pos current_price <= 0 ->
   BotExit.position_pnl pos current_price <= 0) /\
  (0 <= BotExit.pnl_pct pos current_price ->
   0 <= BotExit.position_pnl pos current_price).
Proof.
  intros He Hq. rewrite position_pnl_value. unfold BotExit.pnl_pct.
  destruct (ratio_sign (current_price - Bot.entry_price pos) (Bot.entry_price pos) He)
    as [Hneg Hpos].
  set (d := current_price - Bot.entry_price pos) in *.
  destruct (Bot.side pos); exact_arith_all; fold d; split; intros H.
  - assert (Hd : d <= 0) by (apply Hneg; exact H).
    assert (0 <= - d * Bot.qty pos) by (apply Qmult_le_0_compat; lra). lra.
  - assert (Hd : 0 <= d) by (apply Hpos; exact H).
    apply Qmult_le_0_compat; lra.
  - assert (Hd : 0 <= d) by (apply Hpos; lra).
    assert (0 <= d * Bot.qty pos) by (apply Qmult_le_0_compat; lra). lra.
  - assert (Hd : d <= 0) by (apply Hneg; lra).
    assert (0 <= - d * Bot.qty pos) by (apply Qmult_le_0_compat; lra). lra.
Qed.

(** X17: one turn of [check_exits] acts in the direction of its reason.  For
    an open position with a positive entry price and a non-negative
    quantity, and non-negative stop-loss and take-profit fractions: when the
    fetch fails or neither threshold is reached the state is unchanged; a
    stop-loss exit removes the position and never raises the balance; a
    take-profit exit removes it and never lowers the balance. *)
Theorem check_exits_step_direction
  (bot : Bot.TradingBot) (now pair : string) (pos : Bot.Position)
  (current_price : Q) :
  Bot.positions (Bot.state bot) !! pair = Some pos ->
  0 < Bot.entry_price pos -> 0 <= Bot.qty pos ->
  0 <= Bot.stop_loss_pct bot -> 0 <= Bot.take_profit_pct bot ->
  BotExit.check_exits_step bot now pair pos None = Some (Bot.state bot, []) /\
  exists st' events,
    BotExit.check_exits_step bot now pair pos (Some current_price)
      = Some (st', events) /\
    match BotExit.exit_rule bot pos current_price with
    | None => st' = Bot.state bot /\ events = []
    | Some BotExit.stop_loss =>
        Bot.positions st' !! pair = None /\
        Bot.balance st' <= Bot.balance (Bot.state bot)
    | Some BotExit.take_profit =>
        Bot.positions st' !! pair = None /\
        Bot.balance (Bot.state bot) <= Bot.balance st'
    end.
Proof.
  intros Hpos He Hq Hsl Htp. split; [reflexivity|].
  destruct (pnl_follows_pnl_pct pos current_price He Hq) as [Hloss Hgain].
  unfold BotExit.check_exits_step, BotExit.exit_rule.
  destruct (Qle_bool (BotExit.pnl_pct pos current_price) (- Bot.stop_loss_pct bot))
    eqn:Hstop.
  - apply Qle_bool_iff in Hstop.
    unfold BotExit.close_position. rewrite Hpos. cbn.
    eexists _, _. split; [reflexivity|].
    cbn [Bot.positions Bot.balance].
    split; [apply lookup_delete_eq|].
    rewrite nadd_correct.
    assert (BotExit.position_pnl pos current_price <= 0) by (apply Hloss; lra).
    lra.
  - destruct (Qle_bool (Bot.take_profit_pct bot) (BotExit.pnl_pct pos current_price))
      eqn:Htake.
    + apply Qle_bool_iff in Htake.
      unfold BotExit.close_position. rewrite Hpos. cbn.
      eexists _, _. split; [reflexivity|].
      cbn [Bot.positions Bot.balance].
      split; [apply lookup_delete_eq|].
      rewrite nadd_correct.
      assert (0 <= BotExit.position_pnl pos current_price) by (apply Hgain; lra).
      lra.
    + eexists _, _. split; [reflexivity|]. split; reflexivity.
Qed.

Lemma check_exits_step_direction_witness :
  BotExit.check_exits_step holding_bot "2026-02-03T02:00:00" "BTC" btc_long None
    = Some (Bot.state holding_bot, []) /\
  exists st' events,
    BotExit.check_exits_step holding_bot "2026-02-03T02:00:00" "BTC" btc_long
      (Some 47000) = Some (st', events) /\
    match BotExit.exit_rule holding_bot btc_long 47000 with
    | None => st' = Bot.state holding_bot /\ events = []
    | Some BotExit.stop_loss =>
        Bot.positions st' !! "BTC" = None /\
        Bot.balance st' <= Bot.balance (Bot.state holding_bot)
    | Some BotExit.take_profit =>
        Bot.positions st' !! "BTC" = None /\
        Bot.balance (Bot.state holding_bot) <= Bot.balance st'
    end.
Proof.
  apply (check_exits_step_direction holding_bot "2026-02-03T02:00:00" "BTC"
           btc_long 47000).
  - vm_compute. reflexivity.
  - reflexivity.
  - discriminate.
  - discriminate.
  - discriminate.
Defined.

(** * The two EMA implementations *)

(** X19: [calculate_ema] of regime_detector.py and of regime_detector_v2.py
    return the same value on every array that has at least [period] prices
    or fewer than two; in between (two prices or more, fewer than [period])
    the first returns the last price, and the two can differ. *)
Theorem calculate_ema_versions (prices : list Q) (period : positive) :
  ((Pos.to_nat period <= length prices)%nat \/ (length prices < 2)%nat ->
   V1.calculate_ema prices period = V2.calculate_ema prices period) /\
  ((2 <= length prices)%nat -> (length prices < Pos.to_nat period)%nat ->
   V1.calculate_ema prices period = Return (last_or_zero prices)) /\
  V1.calculate_ema [1; 2] 20 <> V2.calculate_ema [1; 2] 20.
Proof.
  refine (conj _ (conj _ _)).
  - intros Hcase. unfold V1.calculate_ema, V2.calculate_ema.
    destruct (length prices <? Pos.to_nat period)%nat eqn:H1;
      destruct (length prices <? 2)%nat eqn:H2; try reflexivity.
    + apply Nat.ltb_lt in H1. apply Nat.ltb_ge in H2. lia.
    + apply Nat.ltb_ge in H1. apply Nat.ltb_lt in H2.
      destruct prices as [|x [|y rest]]; simpl in H1, H2; try lia.
      reflexivity.
  - intros _ Hshort. apply Nat.ltb_lt in Hshort.
    unfold V1.calculate_ema. rewrite Hshort. apply guarded_last.
  - vm_compute. intros H. discriminate H.
Qed.

Lemma calculate_ema_versions_witness :
  V1.calculate_ema [1; 2; 4] 3 = V2.calculate_ema [1; 2; 4] 3 /\
  V1.calculate_ema [1; 2; 4] 20 = Return (last_or_zero [1; 2; 4]).
Proof.
  split.
  - apply (proj1 (calculate_ema_versions [1; 2; 4] 3)). left. simpl. lia.
  - apply (proj1 (proj2 (calculate_ema_versions [1; 2; 4] 20))); simpl; lia.
Defined.

(** * The shape of Wilder smoothing *)

Section WilderShape.

Variable period : positive.
Variable arr : list Q.

Lemma wilder_fold_keeps_below (idxs : list nat) (result : list Q) (j : nat) :
  Forall (fun i => (j < i)%nat) idxs ->
  fold_left (wilder_step period arr) idxs result !! j = result !! j.
Proof.
  intros H. revert result.
  induction H as [|i idxs Hi H IH]; intros result; simpl; [reflexivity|].
  rewrite IH. unfold wilder_step. apply list_lookup_insert_ne. lia.
Qed.

Lemma Forall_seq_gt (j start len : nat) :
  (j < start)%nat -> Forall (fun i => (j < i)%nat) (seq start len).
Proof.
  intros H. apply Forall_forall. intros i Hi.
  apply list_elem_of_In, in_seq in Hi. lia.
Qed.

Lemma wilder_fold_at (start len : nat) (result : list Q) (i : nat) :
  (start <= i)%nat -> (i < start + len)%nat -> (i < length result)%nat ->
  let final := fold_left (wilder_step period arr) (seq start len) result in
  final !! i =
    Some (nth (i - 1) (if (i =? start)%nat then result else final) 0
          ⊖ nth (i - 1) (if (i =? start)%nat then result else final) 0 ⊘ Qpos period
          ⊕ nth i arr 0).
Proof.
  revert start result. induction len as [|len IH]; intros start result Hlo Hhi Hlen;
    [lia|].
  cbn zeta. simpl seq. simpl fold_left.
  destruct (i =? start)%nat eqn:E.
  - apply Nat.eqb_eq in E. subst i.
    rewrite wilder_fold_keeps_below by (apply Forall_seq_gt; lia).
    unfold wilder_step. apply list_lookup_insert_eq. exact Hlen.
  - apply Nat.eqb_neq in E.
    specialize (IH (S start) (wilder_step period arr result start)).
    cbn zeta in IH. rewrite IH;
      [| lia | lia | unfold wilder_step; rewrite length_insert; exact Hlen].
    destruct (i =? S start)%nat eqn:E'; [|reflexivity].
    apply Nat.eqb_eq in E'. subst i.
    replace (S start - 1)%nat with start by lia.
    assert (Hsame :
      nth start (wilder_step period arr result start) 0
      = nth start (fold_left (wilder_step period arr) (seq (S start) len)
                     (wilder_step period arr result start)) 0).
    { rewrite !(nth_lookup _ start 0).
      rewrite wilder_fold_keeps_below by (apply Forall_seq_gt; lia).
      reflexivity. }
    rewrite Hsame. reflexivity.
Qed.

(** X20: what [wilder_smooth] leaves in its result.  On an array of at least
    [period] values it returns an array of the same length whose first
    [period - 1] entries are 0, whose entry [period - 1] is the mean of the
    first [period] values, and whose every later entry is the entry before
    it, minus its [period]-th part, plus the value at that index; on a
    shorter array it raises IndexError. *)
Theorem wilder_smooth_shape :
  ((length arr < Pos.to_nat period)%nat ->
     wilder_smooth arr period = Raise IndexError) /\
  ((Pos.to_nat period <= length arr)%nat ->
     exists r, wilder_smooth arr period = Return r /\
       length r = length arr /\
       (forall i, (i < Pos.to_nat period - 1)%nat -> r !! i = Some 0) /\
       r !! (Pos.to_nat period - 1)%nat
         = Some (np_mean (take (Pos.to_nat period) arr)) /\
       (forall i prev a, (Pos.to_nat period <= i)%nat ->
          r !! (i - 1)%nat = Some prev -> arr !! i = Some a ->
          r !! i = Some (prev ⊖ prev ⊘ Qpos period ⊕ a))).
Proof.
  unfold wilder_smooth. split.
  - intros Hshort.
    assert (E : (Pos.to_nat period - 1 <? length arr)%nat = false)
      by (apply Nat.ltb_ge; lia).
    rewrite E. reflexivity.
  - intros Hlen.
    assert (E : (Pos.to_nat period - 1 <? length arr)%nat = true)
      by (apply Nat.ltb_lt; lia).
    rewrite E. eexists. split; [reflexivity|].
    set (p := Pos.to_nat period) in *.
    set (seeded := <[(p - 1)%nat := np_mean (take p arr)]> (replicate (length arr) 0)).
    assert (Lseed : length seeded = length arr)
      by (unfold seeded; rewrite length_insert, length_replicate; reflexivity).
    split; [rewrite length_wilder_fold; exact Lseed|].
    split; [|split].
    + intros i Hi.
      rewrite wilder_fold_keeps_below by (apply Forall_seq_gt; lia).
      unfold seeded. rewrite list_lookup_insert_ne by lia.
      apply lookup_replicate_2. lia.
    + rewrite wilder_fold_keeps_below by (apply Forall_seq_gt; lia).
      unfold seeded. apply list_lookup_insert_eq.
      rewrite length_replicate. lia.
    + intros i prev a Hi Hprev Ha.
      assert (Hlt : (i < length arr)%nat) by (eapply lookup_lt_Some; exact Ha).
      pose proof (wilder_fold_at p (length arr - p) seeded i Hi) as Hat.
      cbn zeta in Hat. rewrite Hat by lia.
      rewrite (nth_lookup_Some _ _ 0 _ Ha).
      destruct (i =? p)%nat eqn:Eip.
      * apply Nat.eqb_eq in Eip. subst i.
        rewrite wilder_fold_keeps_below in Hprev by (apply Forall_seq_gt; lia).
        rewrite (nth_lookup_Some _ _ 0 _ Hprev). reflexivity.
      * rewrite (nth_lookup_Some _ _ 0 _ Hprev). reflexivity.
Qed.

End WilderShape.

Lemma wilder_smooth_shape_witness :
  wilder_smooth [1; 2] 3 = Raise IndexError /\
  exists r, wilder_smooth [4; 2; 6; 8] 2 = Return r /\
    length r = length [4; 2; 6; 8] /\
    (forall i, (i < Pos.to_nat 2 - 1)%nat -> r !! i = Some 0) /\
    r !! (Pos.to_nat 2 - 1)%nat = Some (np_mean (take (Pos.to_nat 2) [4; 2; 6; 8])) /\
    (forall i prev a, (Pos.to_nat 2 <= i)%nat ->
       r !! (i - 1)%nat = Some prev -> [4; 2; 6; 8] !! i = Some a ->
       r !! i = Some (prev ⊖ prev ⊘ Qpos 2 ⊕ a)).
Proof.
  split.
  - apply (proj1 (wilder_smooth_shape 3 [1; 2])). simpl. lia.
  - apply (proj2 (wilder_smooth_shape 2 [4; 2; 6; 8])). simpl. lia.
Defined.
